(** * Lavio AI assistant: intent classification, element catalog and action executor

    A shallow embedding of the decision logic of the Lavio browser assistant:

    - [detectActionIntent] (background script): model call, lenient JSON
      extraction, consistency repair, heuristic override, fallbacks;
    - [ElementDetector] (element-detector.js): catalog scan, unique ids,
      de-duplication and the local match score;
    - [ActionExecutor] (action-executor.js): the actions on an element,
      the highlight, scrolling, navigating and [validateAction].

    JavaScript strings are modelled as byte strings, numbers as exact
    rationals extended with NaN and the two infinities, objects as property
    lists, and the DOM as an explicit store of element records. The scores
    that [findElementByDescription] compares are also given as the doubles
    they are, and what the browser does on an assignment to [value], on
    [focus()] and on [click()] is a parameter of the executor. *)

From Stdlib Require Import Bool Ascii String List Arith ZArith QArith Qminmax Qround.
From Stdlib Require Import DecimalString DecimalNat Lia Lqa.
From Stdlib Require PrimFloat SpecFloat FloatOps FloatAxioms.
Import ListNotations.

Local Open Scope string_scope.
Local Open Scope list_scope.

(* ================================================================== *)
(** * Part I. Definitions                                               *)
(* ================================================================== *)

(** ** JavaScript strings

    A string is a sequence of bytes. The bytes above 127 are kept as they
    are: none of them counts as white space, as a letter with another case,
    or as an identifier character. *)

Module JsString.

(** Code of a character. *)
Definition code (c : ascii) : nat := nat_of_ascii c.

Definition in_range (lo hi : nat) (c : ascii) : bool :=
  (lo <=? code c)%nat && (code c <=? hi)%nat.

Definition is_upper (c : ascii) : bool := in_range 65 90 c.
Definition is_lower (c : ascii) : bool := in_range 97 122 c.
Definition is_digit (c : ascii) : bool := in_range 48 57 c.

(** The regular-expression class [\s], restricted to one-byte characters:
    tab, line feed, vertical tab, form feed, carriage return, space. *)
Definition is_space (c : ascii) : bool := in_range 9 13 c || (code c =? 32)%nat.

Definition lower_char (c : ascii) : ascii :=
  if is_upper c then ascii_of_nat (code c + 32) else c.

(** [String.prototype.toLowerCase]: letters A-Z are mapped to a-z, every
    other byte is kept. *)
Fixpoint toLowerCase (s : string) : string :=
  match s with
  | EmptyString => EmptyString
  | String c r => String (lower_char c) (toLowerCase r)
  end.

(** [s.startsWith(p)]. *)
Fixpoint startsWith (s p : string) : bool :=
  match p, s with
  | EmptyString, _ => true
  | String _ _, EmptyString => false
  | String a p', String b s' => Ascii.eqb a b && startsWith s' p'
  end.

(** [s.includes(k)]: [k] occurs in [s] as a contiguous substring. *)
Fixpoint includes (s k : string) : bool :=
  startsWith s k ||
  match s with
  | EmptyString => false
  | String _ r => includes r k
  end.

Fixpoint drop (n : nat) (s : string) : string :=
  match n, s with
  | O, _ => s
  | S _, EmptyString => EmptyString
  | S n', String _ r => drop n' r
  end.

(** [s.substring(0, n)]. *)
Fixpoint take (n : nat) (s : string) : string :=
  match n, s with
  | O, _ => EmptyString
  | S _, EmptyString => EmptyString
  | S n', String c r => String c (take n' r)
  end.

Fixpoint all_space (s : string) : bool :=
  match s with
  | EmptyString => true
  | String c r => is_space c && all_space r
  end.

Fixpoint trimStart (s : string) : string :=
  match s with
  | EmptyString => EmptyString
  | String c r => if is_space c then trimStart r else s
  end.

Fixpoint trimEnd (s : string) : string :=
  match s with
  | EmptyString => EmptyString
  | String c r => if all_space s then EmptyString else String c (trimEnd r)
  end.

(** [s.trim()]. *)
Definition trim (s : string) : string := trimEnd (trimStart s).

(** Number of leading [\s] characters. *)
Fixpoint spaces (s : string) : nat :=
  match s with
  | String c r => if is_space c then S (spaces r) else O
  | EmptyString => O
  end.

(** [s.replace(re, ...)] with the [g] flag, for a pattern given by its
    matcher: [m rest] is [Some (n, out)] when the pattern matches the next
    [S n] characters of [rest], to be replaced by [out].  Matches are
    looked for from left to right and do not overlap. *)
Fixpoint replace_from (m : string -> option (nat * string)) (skip : nat)
         (s : string) : string :=
  match s with
  | EmptyString => EmptyString
  | String c r =>
      match skip with
      | S k => replace_from m k r
      | O =>
          match m s with
          | Some (n, out) => out ++ replace_from m n r
          | None => String c (replace_from m O r)
          end
      end
  end.

Definition replaceAll (m : string -> option (nat * string)) (s : string) : string :=
  replace_from m O s.

(** [s.split(/\s+/)]: the pieces between maximal runs of white space; a
    leading or trailing run leaves an empty first or last piece. *)
Fixpoint split_ws_from (cur : string) (in_gap : bool) (s : string) : list string :=
  match s with
  | EmptyString => [cur]
  | String c r =>
      if is_space c
      then if in_gap then split_ws_from cur true r
           else cur :: split_ws_from EmptyString true r
      else split_ws_from (cur ++ String c EmptyString) false r
  end.

Definition split_ws (s : string) : list string := split_ws_from EmptyString false s.

(** Decimal rendering of an array index, as a template literal does. *)
Definition of_index (n : nat) : string :=
  NilEmpty.string_of_uint (Nat.to_uint n).

(** Used to tell unique ids apart: whether a string is made of digits,
    the longest suffix of a string that is, and its first character. *)
Fixpoint all_digits (s : string) : bool :=
  match s with
  | EmptyString => true
  | String c r => is_digit c && all_digits r
  end.

Fixpoint trailing_digits (s : string) : string :=
  match s with
  | EmptyString => EmptyString
  | String _ r => if all_digits s then s else trailing_digits r
  end.

Definition first_char (s : string) : option ascii :=
  match s with
  | EmptyString => None
  | String c _ => Some c
  end.

End JsString.

(** ** JavaScript numbers and values *)

Module JsValue.
Import JsString.

(** A number: an exact rational, NaN, or one of the infinities (rounding
    to a binary double is not modelled). *)
Inductive number : Type :=
| NaN
| NegInfinity
| Finite (q : Q)
| Infinity.

(** [a <= b]; false as soon as one side is NaN. *)
Definition num_leb (a b : number) : bool :=
  match a, b with
  | NaN, _ | _, NaN => false
  | NegInfinity, _ => true
  | _, Infinity => true
  | Finite x, Finite y => Qle_bool x y
  | _, _ => false
  end.


(** [Math.max(a, b)] on numbers. *)
Definition Math_max (a b : number) : number :=
  match a, b with
  | NaN, _ | _, NaN => NaN
  | _, _ => if num_leb a b then b else a
  end.

Definition num_neg (a : number) : number :=
  match a with
  | NaN => NaN
  | NegInfinity => Infinity
  | Finite q => Finite (- q)
  | Infinity => NegInfinity
  end.

(** A value: what [JSON.parse] can build, and [undefined]. An object is
    the list of its own properties, each key once. *)
#[warnings="-register-all"] Inductive value : Type :=
| VUndefined
| VNull
| VBool (b : bool)
| VNumber (n : number)
| VString (s : string)
| VArray (items : list value)
| VObject (props : list (string * value)).

Definition object : Type := list (string * value).

(** Property read [o.k]: [undefined] when [o] has no such property. *)
Fixpoint get (o : object) (k : string) : value :=
  match o with
  | [] => VUndefined
  | (k', v) :: rest => if String.eqb k k' then v else get rest k
  end.

(** Property write [o.k = v]. *)
Fixpoint set (o : object) (k : string) (v : value) : object :=
  match o with
  | [] => [(k, v)]
  | (k', v') :: rest =>
      if String.eqb k k' then (k, v) :: rest else (k', v') :: set rest k v
  end.

(** ToBoolean: the truthiness tested by [if], [&&], [||] and [!]. *)
Definition truthy (v : value) : bool :=
  match v with
  | VUndefined | VNull => false
  | VBool b => b
  | VNumber NaN => false
  | VNumber (Finite q) => negb (Qeq_bool q 0)
  | VNumber _ => true
  | VString s => negb (String.eqb s EmptyString)
  | VArray _ | VObject _ => true
  end.

(** [v == null]: the value is [null] or [undefined]. *)
Definition nullish (v : value) : bool :=
  match v with
  | VUndefined | VNull => true
  | _ => false
  end.

(** [typeof v === "boolean"]. *)
Definition is_boolean (v : value) : bool :=
  match v with
  | VBool _ => true
  | _ => false
  end.

(** *** Numeric literals *)

Definition digit_val (c : ascii) : Z := Z.of_nat (code c - 48).

(** Reads a run of decimal digits: its value on top of [acc], how many
    digits were read, and the rest. *)
Fixpoint read_digits (s : string) (acc : Z) (n : nat) : Z * nat * string :=
  match s with
  | String c r =>
      if is_digit c then read_digits r (acc * 10 + digit_val c)%Z (S n)
      else (acc, n, s)
  | EmptyString => (acc, n, s)
  end.

(** [m * 10 ^ e] as a rational. *)
Definition scale10 (m e : Z) : Q :=
  if (0 <=? e)%Z then Qmake (m * 10 ^ e) 1
  else Qmake m (Z.to_pos (10 ^ (- e))).

(** Optional exponent part [[eE][+-]?digits]: [None] when an exponent
    marker is not followed by digits. *)
Definition read_exponent (s : string) : option (Z * string) :=
  match s with
  | String c r =>
      if (Ascii.eqb c "e" || Ascii.eqb c "E")%bool then
        let '(sgn, r1) :=
          match r with
          | String "+"%char r' => (1%Z, r')
          | String "-"%char r' => ((-1)%Z, r')
          | _ => (1%Z, r)
          end in
        let '(e, ne, r2) := read_digits r1 0%Z O in
        if (ne =? 0)%nat then None else Some ((sgn * e)%Z, r2)
      else Some (0%Z, s)
  | EmptyString => Some (0%Z, s)
  end.

(** An unsigned decimal literal. With [strict] it follows the JSON
    grammar (no leading zero, digits on both sides of the point);
    otherwise the grammar of numeric strings ("5.", ".5", "007"). *)
Definition read_decimal (strict : bool) (s : string) : option (Q * string) :=
  let '(i, ni, r1) := read_digits s 0%Z O in
  let lead0 := match s with String "0"%char _ => true | _ => false end in
  if (strict && ((ni =? 0)%nat || (lead0 && (1 <? ni)%nat)))%bool then None else
  let '(f, nf, r2, dot) :=
    match r1 with
    | String "."%char r' =>
        let '(f, nf, r2) := read_digits r' 0%Z O in (f, nf, r2, true)
    | _ => (0%Z, O, r1, false)
    end in
  if (strict && dot && (nf =? 0)%nat)%bool then None else
  if ((ni + nf =? 0)%nat)%bool then None else
  match read_exponent r2 with
  | None => None
  | Some (e, r3) =>
      Some (scale10 (i * 10 ^ Z.of_nat nf + f) (e - Z.of_nat nf), r3)
  end.

Definition radix_digit (radix : Z) (c : ascii) : option Z :=
  let v :=
    if is_digit c then Some (digit_val c)
    else if in_range 97 102 c then Some (Z.of_nat (code c - 87))
    else if in_range 65 70 c then Some (Z.of_nat (code c - 55))
    else None in
  match v with
  | Some d => if (d <? radix)%Z then Some d else None
  | None => None
  end.

Fixpoint read_radix (radix : Z) (s : string) (acc : Z) : option Z :=
  match s with
  | EmptyString => Some acc
  | String c r =>
      match radix_digit radix c with
      | Some d => read_radix radix r (acc * radix + d)%Z
      | None => None
      end
  end.

(** Literals [0x..], [0o..], [0b..] (at least one digit). *)
Definition read_non_decimal (s : string) : option Z :=
  match s with
  | String "0"%char (String p (String c r)) =>
      let body := String c r in
      if (Ascii.eqb p "x" || Ascii.eqb p "X")%bool then read_radix 16 body 0
      else if (Ascii.eqb p "o" || Ascii.eqb p "O")%bool then read_radix 8 body 0
      else if (Ascii.eqb p "b" || Ascii.eqb p "B")%bool then read_radix 2 body 0
      else None
  | _ => None
  end.

(** ToNumber on a string: white space is trimmed, the empty string is 0,
    anything that is not a numeric literal is NaN. *)
Definition StringToNumber (s : string) : number :=
  let t := trim s in
  if String.eqb t EmptyString then Finite 0 else
  match read_non_decimal t with
  | Some z => Finite (inject_Z z)
  | None =>
      let '(negative, body) :=
        match t with
        | String "+"%char r => (false, r)
        | String "-"%char r => (true, r)
        | _ => (false, t)
        end in
      let magnitude :=
        if String.eqb body "Infinity" then Infinity else
        match read_decimal false body with
        | Some (q, EmptyString) => Finite q
        | _ => NaN
        end in
      if negative then num_neg magnitude else magnitude
  end.

(** ToNumber, as applied by [Math.max] to its arguments. An array is
    first turned into the comma-separated list of its items. *)
Fixpoint ToNumber (v : value) : number :=
  match v with
  | VUndefined => NaN
  | VNull => Finite 0
  | VBool b => if b then Finite 1 else Finite 0
  | VNumber n => n
  | VString s => StringToNumber s
  | VArray [] => Finite 0
  | VArray [x] =>
      match x with
      | VUndefined | VNull => Finite 0
      | VBool _ | VObject _ => NaN
      | VNumber n => n
      | VString s => StringToNumber s
      | VArray _ => ToNumber x
      end
  | VArray _ => NaN
  | VObject _ => NaN
  end.

End JsValue.

(** ** [JSON.parse] *)

Module Json.
Import JsString JsValue.

(** JSON white space: space, tab, line feed, carriage return. *)
Definition is_ws (c : ascii) : bool :=
  ((code c =? 32) || (code c =? 9) || (code c =? 10) || (code c =? 13))%nat.

Fixpoint skip_ws (s : string) : string :=
  match s with
  | String c r => if is_ws c then skip_ws r else s
  | EmptyString => s
  end.

(** The bytes of the UTF-8 encoding of a 16-bit code unit. *)
Definition utf8 (n : nat) : string :=
  if (n <? 128)%nat then String (ascii_of_nat n) EmptyString
  else if (n <? 2048)%nat then
    String (ascii_of_nat (192 + n / 64))
      (String (ascii_of_nat (128 + n mod 64)) EmptyString)
  else
    String (ascii_of_nat (224 + n / 4096))
      (String (ascii_of_nat (128 + (n / 64) mod 64))
         (String (ascii_of_nat (128 + n mod 64)) EmptyString)).

(** Where the scanner is inside a string literal. *)
Inductive lit_state : Type :=
| Plain
| Escape
| Unicode (left : nat) (acc : nat).

Definition emit (out : string) (k : option (string * string)) : option (string * string) :=
  match k with
  | Some (body, rest) => Some ((out ++ body)%string, rest)
  | None => None
  end.

Definition one (c : ascii) : string := String c EmptyString.

(** The double-quote character. *)
Definition dquote : ascii := ascii_of_nat 34.

(** [s] between double quotes (no escaping), to write JSON texts. *)
Definition quoted (s : string) : string :=
  String dquote (s ++ one dquote).

(** The body of a string literal, after its opening quote: the decoded
    text and what follows the closing quote. *)
Fixpoint read_string (st : lit_state) (s : string) : option (string * string) :=
  match s with
  | EmptyString => None
  | String c r =>
      match st with
      | Plain =>
          if Ascii.eqb c dquote then Some (EmptyString, r)
          else if Ascii.eqb c "\" then read_string Escape r
          else if (code c <? 32)%nat then None
          else emit (one c) (read_string Plain r)
      | Escape =>
          if (Ascii.eqb c dquote || Ascii.eqb c "\" || Ascii.eqb c "/")%bool
          then emit (one c) (read_string Plain r)
          else if Ascii.eqb c "b" then emit (one (ascii_of_nat 8)) (read_string Plain r)
          else if Ascii.eqb c "f" then emit (one (ascii_of_nat 12)) (read_string Plain r)
          else if Ascii.eqb c "n" then emit (one (ascii_of_nat 10)) (read_string Plain r)
          else if Ascii.eqb c "r" then emit (one (ascii_of_nat 13)) (read_string Plain r)
          else if Ascii.eqb c "t" then emit (one (ascii_of_nat 9)) (read_string Plain r)
          else if Ascii.eqb c "u" then read_string (Unicode 4 0) r
          else None
      | Unicode (S k) acc =>
          match radix_digit 16 c with
          | Some h =>
              let acc' := (acc * 16 + Z.to_nat h)%nat in
              match k with
              | O => emit (utf8 acc') (read_string Plain r)
              | S _ => read_string (Unicode k acc') r
              end
          | None => None
          end
      | Unicode O _ => None
      end
  end.

(** A JSON number: optional minus sign, then a strict decimal literal. *)
Definition read_number (s : string) : option (value * string) :=
  let '(negative, body) :=
    match s with
    | String "-"%char r => (true, r)
    | _ => (false, s)
    end in
  match read_decimal true body with
  | Some (q, rest) => Some (VNumber (Finite (if negative then - q else q)), rest)
  | None => None
  end.

Definition keyword (w : string) (v : value) (s : string) : option (value * string) :=
  if startsWith s w then Some (v, drop (String.length w) s) else None.

(** One JSON value at the head of [s]; [fuel] bounds the nesting and
    the number of members. A repeated key keeps its last value. *)
Fixpoint read_value (fuel : nat) (s : string) : option (value * string) :=
  match fuel with
  | O => None
  | S f =>
      match skip_ws s with
      | EmptyString => None
      | String c r =>
          if Ascii.eqb c "{" then
            match skip_ws r with
            | String "}"%char r' => Some (VObject [], r')
            | _ => read_members f [] r
            end
          else if Ascii.eqb c "[" then
            match skip_ws r with
            | String "]"%char r' => Some (VArray [], r')
            | _ => read_items f [] r
            end
          else if Ascii.eqb c dquote then
            match read_string Plain r with
            | Some (body, rest) => Some (VString body, rest)
            | None => None
            end
          else if Ascii.eqb c "t" then keyword "true" (VBool true) (String c r)
          else if Ascii.eqb c "f" then keyword "false" (VBool false) (String c r)
          else if Ascii.eqb c "n" then keyword "null" VNull (String c r)
          else read_number (String c r)
      end
  end
with read_members (fuel : nat) (acc : object) (s : string) : option (value * string) :=
  match fuel with
  | O => None
  | S f =>
      match skip_ws s with
      | String c r =>
          if negb (Ascii.eqb c dquote) then None else
          match read_string Plain r with
          | Some (k, r1) =>
              match skip_ws r1 with
              | String ":"%char r2 =>
                  match read_value f r2 with
                  | Some (v, r3) =>
                      match skip_ws r3 with
                      | String ","%char r4 => read_members f (set acc k v) r4
                      | String "}"%char r4 => Some (VObject (set acc k v), r4)
                      | _ => None
                      end
                  | None => None
                  end
              | _ => None
              end
          | None => None
          end
      | EmptyString => None
      end
  end
with read_items (fuel : nat) (acc : list value) (s : string) : option (value * string) :=
  match fuel with
  | O => None
  | S f =>
      match read_value f s with
      | Some (v, r1) =>
          match skip_ws r1 with
          | String ","%char r2 => read_items f (acc ++ [v]) r2
          | String "]"%char r2 => Some (VArray (acc ++ [v]), r2)
          | _ => None
          end
      | None => None
      end
  end.

(** [JSON.parse(s)]: [None] stands for the SyntaxError it throws. *)
Definition parse (s : string) : option value :=
  match read_value (2 * String.length s + 4) s with
  | Some (v, rest) =>
      match skip_ws rest with
      | EmptyString => Some v
      | String _ _ => None
      end
  | None => None
  end.

End Json.

(** ** The intent classifier: [detectActionIntent] *)

Module IntentClassifier.
Import JsString JsValue.

(** The error a rejected model call carries. *)
Record Error : Type := { message : string }.

(** What [await this.aiSession.prompt(prompt)] did: it threw (or the
    promise was rejected), or it gave the model's reply. The prompt text is
    only handed to the model; the reply is an input of the classifier. *)
Inductive prompt_outcome : Type :=
| Rejected (error : Error)
| Resolved (response : string).

(** *** Stage 2: lenient JSON extraction *)

(** The pattern [```json\s*]. *)
Definition json_fence (s : string) : option (nat * string) :=
  if startsWith s "```json" then Some (6 + spaces (drop 7 s), EmptyString)%nat
  else None.

(** The pattern [```\s*$]: a fence with only white space up to the end. *)
Definition closing_fence (s : string) : option (nat * string) :=
  if (startsWith s "```" && all_space (drop 3 s))%bool
  then Some (2 + String.length (drop 3 s), EmptyString)%nat
  else None.

Fixpoint from_first_brace (s : string) : option string :=
  match s with
  | EmptyString => None
  | String c r => if Ascii.eqb c "{" then Some r else from_first_brace r
  end.

(** The longest prefix of [s] that ends with a closing brace. *)
Fixpoint upto_last_brace (s : string) : option string :=
  match s with
  | EmptyString => None
  | String c r =>
      match upto_last_brace r with
      | Some t => Some (String c t)
      | None => if Ascii.eqb c "}" then Some (String c EmptyString) else None
      end
  end.

(** [cleanedResponse.match(/\{[\s\S]*\}/)]: from the first opening brace
    to the last closing brace after it. *)
Definition jsonMatch (s : string) : option string :=
  match from_first_brace s with
  | Some r =>
      match upto_last_brace r with
      | Some t => Some (String "{" t)
      | None => None
      end
  | None => None
  end.

(** The pattern [OR null], replaced by [null]. *)
Definition or_null (s : string) : option (nat * string) :=
  if startsWith s "OR null" then Some (6%nat, "null") else None.

(** The pattern [:\s*w\s*([,}])] for a literal [w], replaced by
    [": w"] and the delimiter. *)
Definition spaced_literal (w : string) (s : string) : option (nat * string) :=
  match s with
  | String ":"%char r =>
      let n1 := spaces r in
      let r1 := drop n1 r in
      if startsWith r1 w then
        let r2 := drop (String.length w) r1 in
        let n2 := spaces r2 in
        match drop n2 r2 with
        | String d _ =>
            if (Ascii.eqb d "," || Ascii.eqb d "}")%bool
            then Some ((n1 + String.length w + n2 + 1)%nat,
                       (": " ++ w ++ String d EmptyString)%string)
            else None
        | EmptyString => None
        end
      else None
  | _ => None
  end.

(** Everything between the model's reply and the validated [intent]
    object; [None] stands for an exception thrown inside the inner [try]. *)
Definition parse_intent (response : string) : option object :=
  let cleanedResponse :=
    replaceAll closing_fence (replaceAll json_fence (trim response)) in
  match jsonMatch cleanedResponse with
  | None => None
  | Some jsonStr =>
      let jsonStr := replaceAll or_null jsonStr in
      let jsonStr := replaceAll (spaced_literal "null") jsonStr in
      let jsonStr := replaceAll (spaced_literal "true") jsonStr in
      let jsonStr := replaceAll (spaced_literal "false") jsonStr in
      match Json.parse jsonStr with
      | Some (VObject intent) =>
          if is_boolean (get intent "isAction") then Some intent else None
      | _ => None
      end
  end.

(** *** Stage 3: consistency repair *)

Definition consistency_repair (intent : object) : object :=
  if (truthy (get intent "actionType") && negb (truthy (get intent "isAction")))%bool
  then
    let intent := set intent "isAction" (VBool true) in
    let intent :=
      set intent "confidence"
        (VNumber (Math_max (ToNumber (get intent "confidence")) (Finite (8 # 10)))) in
    set intent "reasoning" (VString "Fixed: actionType detected")
  else intent.

(** *** Stage 4: heuristic override *)

Module Override.

Definition informationKeywords : list string :=
  [ "tell me"; "what is"; "what are"; "what does"; "how does"; "why does";
    "explain"; "describe"; "summarize"; "which"; "who"; "when"; "where";
    "about this page"; "about the page"; "most views"; "most likes";
    "most popular"; "find the"; "show me the" ].

Definition actionKeywords : list string :=
  [ "click on"; "press on"; "tap on"; "scroll"; "type"; "enter"; "focus on";
    "go back"; "go forward"; "make text"; "make the text"; "text larger";
    "text smaller"; "text bigger"; "text size"; "font size"; "bigger text";
    "smaller text"; "increase text"; "decrease text"; "reduce text";
    "reset text"; "normal text"; "default text"; "dark mode"; "light mode";
    "enable dark"; "disable dark"; "hide ads"; "hide sidebar"; "show ads";
    "change background"; "change color"; "zoom in"; "zoom out"; "reset page";
    "reader mode"; "focus mode"; "can you make"; "can you change";
    "can you hide" ].

End Override.

(** [keywords.some((keyword) => lowerInput.includes(keyword))]. *)
Definition some_included (keywords : list string) (lowerInput : string) : bool :=
  existsb (includes lowerInput) keywords.

Definition heuristic_override (userInput : string) (intent : object) : object :=
  if negb (truthy (get intent "isAction")) then
    let lowerInput := toLowerCase userInput in
    let isInformationRequest := some_included Override.informationKeywords lowerInput in
    if isInformationRequest then intent
    else
      let hasStrongActionKeyword := some_included Override.actionKeywords lowerInput in
      if hasStrongActionKeyword then
        let intent := set intent "isAction" (VBool true) in
        let intent :=
          set intent "confidence"
            (VNumber (Math_max (ToNumber (get intent "confidence")) (Finite (7 # 10)))) in
        set intent "reasoning" (VString "Overridden - detected as action via heuristics")
      else intent
  else intent.

(** *** Stage 5: fallback heuristic, after a parse failure *)

Module Fallback.

Definition informationKeywords : list string :=
  [ "tell me"; "what is"; "what are"; "what does"; "how does"; "why does";
    "explain"; "describe"; "summarize"; "which"; "who"; "when"; "where";
    "about"; "most views"; "most likes"; "most popular"; "find the";
    "show me the" ].

Definition actionKeywords : list string :=
  [ "click on"; "press on"; "tap on"; "scroll"; "go back"; "go forward";
    "navigate"; "refresh"; "reload"; "type in"; "type into"; "focus on";
    "make text"; "make the text"; "text larger"; "text smaller";
    "text bigger"; "text size"; "font size"; "bigger text"; "smaller text";
    "increase text"; "decrease text"; "reduce text"; "reset text";
    "normal text"; "default text"; "dark mode"; "light mode"; "hide ads";
    "change background"; "change color"; "zoom in"; "zoom out";
    "can you make"; "can you change"; "can you hide" ].

End Fallback.

Definition fallback_heuristic (userInput : string) : object :=
  let lowerInput := toLowerCase userInput in
  let isInformationRequest := some_included Fallback.informationKeywords lowerInput in
  let hasActionKeyword := some_included Fallback.actionKeywords lowerInput in
  let isLikelyAction := (hasActionKeyword && negb isInformationRequest)%bool in
  [ ("isAction", VBool isLikelyAction);
    ("confidence", VNumber (Finite (3 # 10)));
    ("actionType", VNull);
    ("targetDescription", VNull);
    ("additionalData", VNull);
    ("reasoning", VString "Failed to parse AI response, using heuristics") ].

(** *** Stage 6: the model call failed *)

Definition error_intent (error : Error) : object :=
  [ ("isAction", VBool false);
    ("confidence", VNumber (Finite 0));
    ("actionType", VNull);
    ("targetDescription", VNull);
    ("additionalData", VNull);
    ("reasoning", VString ("Error: " ++ message error)) ].

(** *** The classifier *)

Definition detectActionIntent (userInput : string) (outcome : prompt_outcome) : object :=
  match outcome with
  | Rejected error => error_intent error
  | Resolved response =>
      match parse_intent response with
      | Some intent => heuristic_override userInput (consistency_repair intent)
      | None => fallback_heuristic userInput
      end
  end.

End IntentClassifier.

(** ** Model-assisted element matching: [findBestElementMatch] *)

Module ElementMatcher.
Import JsString JsValue IntentClassifier.

(** [typeof v === "number"]. *)
Definition is_number (v : value) : bool :=
  match v with
  | VNumber _ => true
  | _ => false
  end.

(** Everything between the model's reply and the validated [result]
    object; [None] stands for an exception thrown inside the inner [try].
    No textual repair is applied here. *)
Definition parse_match (response : string) : option object :=
  let cleanedResponse :=
    replaceAll closing_fence (replaceAll json_fence (trim response)) in
  match jsonMatch cleanedResponse with
  | None => None
  | Some jsonStr =>
      match Json.parse jsonStr with
      | Some (VObject result) =>
          if (is_number (get result "matchIndex") && is_number (get result "confidence"))%bool
          then Some result else None
      | _ => None
      end
  end.

Definition no_match (reasoning : string) : object :=
  [ ("success", VBool false);
    ("matchIndex", VNumber (Finite (-1)));
    ("confidence", VNumber (Finite 0));
    ("reasoning", VString reasoning) ].

(** [findBestElementMatch]. The description and the elements only go into
    the prompt; the model's outcome is an input. *)
Definition findBestElementMatch (outcome : prompt_outcome) : object :=
  match outcome with
  | Rejected error => no_match ("Error: " ++ message error)
  | Resolved response =>
      match parse_match response with
      | Some result =>
          [ ("success", VBool true);
            ("matchIndex", get result "matchIndex");
            ("confidence", get result "confidence");
            ("reasoning",
             if truthy (get result "reasoning") then get result "reasoning"
             else VString "AI match") ]
      | None => no_match "Failed to parse AI response"
      end
  end.

End ElementMatcher.

(** ** The element catalog: element-detector.js *)

Module ElementDetector.
Import JsString.

(** [element.getBoundingClientRect()], as far as the scan reads it. *)
Record Rect : Type := {
  top : Q; left : Q; width : Q; height : Q
}.

(** One element of the page, as the scan sees it. The answers of the
    host's queries about it ([getComputedStyle], [getBoundingClientRect],
    label look-ups, ancestors) are fields of the record. *)
Record Element : Type := {
  node : nat;                        (* identity of the DOM node *)
  tagName : string;                  (* local name, lower case *)
  attributes : list (string * string);
  typeProperty : string;             (* [element.type] *)
  textContent : string;
  innerText : string;
  valueProperty : option string;     (* [element.value] *)
  display : string;                  (* computed style *)
  visibility : string;
  opacity : string;
  rect : Rect;
  inSearchRole : bool;               (* has an ancestor with role="search" *)
  labelFor : option string;          (* text of the label[for=id], if any *)
  closestLabel : option string       (* text of the enclosing label, if any *)
}.

(** [element.getAttribute(name)]. *)
Fixpoint getAttribute (attrs : list (string * string)) (name : string) : option string :=
  match attrs with
  | [] => None
  | (k, v) :: rest => if String.eqb k name then Some v else getAttribute rest name
  end.

(** A reflected string property ([id], [className], [placeholder],
    [name]): the attribute, or the empty string. *)
Definition reflected (e : Element) (name : string) : string :=
  match getAttribute (attributes e) name with
  | Some v => v
  | None => EmptyString
  end.

(** [a || b] on strings that may be [null]/[undefined]. *)
Definition or_else (a : option string) (b : option string) : option string :=
  match a with
  | Some s => if String.eqb s EmptyString then b else a
  | None => b
  end.

Definition or_string (a : option string) (b : string) : string :=
  match or_else a (Some b) with
  | Some s => s
  | None => b
  end.

(** *** Selectors *)

(** [[name="v"]]; the value of [type] is compared without regard to case. *)
Definition attr_is (e : Element) (name v : string) : bool :=
  match getAttribute (attributes e) name with
  | Some x =>
      if String.eqb name "type" then String.eqb (toLowerCase x) v else String.eqb x v
  | None => false
  end.

(** [[name*="v" i]]. *)
Definition attr_contains_i (e : Element) (name v : string) : bool :=
  match getAttribute (attributes e) name with
  | Some x => includes (toLowerCase x) v
  | None => false
  end.

Definition has_attr (e : Element) (name : string) : bool :=
  match getAttribute (attributes e) name with
  | Some _ => true
  | None => false
  end.

Definition is_tag (e : Element) (t : string) : bool := String.eqb (tagName e) t.

Definition button_selector (e : Element) : bool :=
  is_tag e "button"
  || (is_tag e "input" && attr_is e "type" "button")
  || (is_tag e "input" && attr_is e "type" "submit")
  || attr_is e "role" "button".

Definition link_selector (e : Element) : bool :=
  is_tag e "a" && has_attr e "href".

Definition input_selector (e : Element) : bool :=
  (is_tag e "input"
   && negb (attr_is e "type" "hidden")
   && negb (attr_is e "type" "button")
   && negb (attr_is e "type" "submit"))
  || is_tag e "textarea".

Definition search_selector (e : Element) : bool :=
  is_tag e "input"
  && (attr_is e "type" "search"
      || attr_contains_i e "name" "search"
      || attr_contains_i e "id" "search"
      || attr_contains_i e "placeholder" "search"
      || attr_contains_i e "aria-label" "search"
      || inSearchRole e).

(** [document.querySelectorAll(selector)]: the matching elements, in
    document order. *)
Definition querySelectorAll (document : list Element) (selector : Element -> bool)
  : list Element :=
  filter selector document.

(** *** Helpers of the detector *)

Definition isVisible (e : Element) : bool :=
  if (String.eqb (display e) "none"
      || String.eqb (visibility e) "hidden"
      || String.eqb (opacity e) "0")%bool
  then false
  else if (Qeq_bool (width (rect e)) 0 || Qeq_bool (height (rect e)) 0)%bool
  then false
  else true.

Definition getElementText (e : Element) : string :=
  let text :=
    or_string
      (or_else (Some (trim (textContent e)))
         (or_else (Some (trim (innerText e)))
            (or_else (option_map trim (valueProperty e))
               (or_else (getAttribute (attributes e) "aria-label")
                  (or_else (getAttribute (attributes e) "title")
                     (getAttribute (attributes e) "alt"))))))
      EmptyString in
  take 100 text.

(** [s.replace(p, "")] for a string pattern [p]: the first occurrence of
    [p] is removed. *)
Fixpoint remove_first (p s : string) : string :=
  if startsWith s p then drop (String.length p) s
  else match s with
       | EmptyString => EmptyString
       | String c r => String c (remove_first p r)
       end.

Definition getInputLabel (e : Element) : string :=
  let by_id :=
    if negb (String.eqb (reflected e "id") EmptyString) then labelFor e else None in
  match by_id with
  | Some t => trim t
  | None =>
      match closestLabel e with
      | Some t => trim (remove_first (or_string (valueProperty e) EmptyString) t)
      | None =>
          or_string
            (or_else (Some (reflected e "placeholder"))
               (or_else (getAttribute (attributes e) "aria-label")
                  (Some (reflected e "name"))))
            EmptyString
      end
  end.

(** Position relative to the viewport. *)
Record Position : Type := {
  p_top : Q; p_left : Q; p_bottom : Q; p_right : Q;
  p_width : Q; p_height : Q; p_centerX : Q; p_centerY : Q
}.

Definition getElementPosition (e : Element) : Position :=
  let r := rect e in
  {| p_top := top r; p_left := left r;
     p_bottom := top r + height r; p_right := left r + width r;
     p_width := width r; p_height := height r;
     p_centerX := left r + width r / 2;
     p_centerY := top r + height r / 2 |}.

(** The pattern [\s+], replaced by an underscore. *)
Definition space_run (s : string) : option (nat * string) :=
  match spaces s with
  | O => None
  | S n => Some (n, "_")
  end.

Definition id_char (c : ascii) : bool :=
  is_lower c || is_upper c || is_digit c || Ascii.eqb c "_".

(** [s.replace(/[^a-zA-Z0-9_]/g, "")]. *)
Fixpoint keep_id_chars (s : string) : string :=
  match s with
  | EmptyString => EmptyString
  | String c r => if id_char c then String c (keep_id_chars r) else keep_id_chars r
  end.

Definition generateUniqueId (e : Element) (type : string) (index : nat) : string :=
  let id := reflected e "id" in
  let className := reflected e "class" in
  let text := take 20 (getElementText e) in
  keep_id_chars
    (replaceAll space_run
       (type ++ "_" ++ id ++ "_" ++ className ++ "_" ++ text ++ "_" ++ of_index index)).

(** *** Catalog entries *)

(** An entry of the catalog. A field that an entry of this kind does not
    have ([undefined]) or that is [null] is [None]. *)
Record Entry : Type := {
  type : string;
  element : nat;                     (* the DOM node it refers to *)
  text : option string;
  href : option string;
  inputType : option string;
  placeholder : option string;
  ariaLabel : option string;
  label : option string;
  id : string;
  name : option string;
  className : string;
  position : Position;
  uniqueId : string
}.

(** [list.forEach((element, index) => ...)] that pushes at most one entry
    per element. *)
Fixpoint collect (f : Element -> nat -> option Entry) (index : nat)
         (elements : list Element) : list Entry :=
  match elements with
  | [] => []
  | e :: rest =>
      match f e index with
      | Some entry => entry :: collect f (S index) rest
      | None => collect f (S index) rest
      end
  end.

Definition button_entry (e : Element) (index : nat) : option Entry :=
  if negb (isVisible e) then None else
  Some {| type := "button"; element := node e;
          text := Some (getElementText e); href := None;
          inputType := None; placeholder := None;
          ariaLabel := getAttribute (attributes e) "aria-label";
          label := None; id := reflected e "id"; name := None;
          className := reflected e "class";
          position := getElementPosition e;
          uniqueId := generateUniqueId e "button" index |}.

Definition link_entry (e : Element) (index : nat) : option Entry :=
  if negb (isVisible e) then None else
  if (negb (Qle_bool 10 (width (rect e))) || negb (Qle_bool 10 (height (rect e))))%bool
  then None else
  Some {| type := "link"; element := node e;
          text := Some (getElementText e); href := Some (reflected e "href");
          inputType := None; placeholder := None;
          ariaLabel := getAttribute (attributes e) "aria-label";
          label := None; id := reflected e "id"; name := None;
          className := reflected e "class";
          position := getElementPosition e;
          uniqueId := generateUniqueId e "link" index |}.

Definition input_entry (e : Element) (index : nat) : option Entry :=
  if negb (isVisible e) then None else
  Some {| type := "input"; element := node e;
          text := None; href := None;
          inputType := Some (or_string (Some (typeProperty e)) "text");
          placeholder := Some (reflected e "placeholder");
          ariaLabel := getAttribute (attributes e) "aria-label";
          label := Some (getInputLabel e);
          id := reflected e "id"; name := Some (reflected e "name");
          className := reflected e "class";
          position := getElementPosition e;
          uniqueId := generateUniqueId e "input" index |}.

Definition search_entry (e : Element) (index : nat) : option Entry :=
  if negb (isVisible e) then None else
  Some {| type := "search"; element := node e;
          text := None; href := None;
          inputType := Some (or_string (Some (typeProperty e)) "text");
          placeholder := Some (reflected e "placeholder");
          ariaLabel := getAttribute (attributes e) "aria-label";
          label := Some (or_string (Some (getInputLabel e)) "Search");
          id := reflected e "id"; name := Some (reflected e "name");
          className := reflected e "class";
          position := getElementPosition e;
          uniqueId := generateUniqueId e "search" index |}.

Definition getAllButtons (document : list Element) : list Entry :=
  collect button_entry 0 (querySelectorAll document button_selector).

Definition getAllLinks (document : list Element) : list Entry :=
  collect link_entry 0 (querySelectorAll document link_selector).

Definition getAllInputs (document : list Element) : list Entry :=
  collect input_entry 0 (querySelectorAll document input_selector).

Definition getAllSearchBars (document : list Element) : list Entry :=
  collect search_entry 0 (querySelectorAll document search_selector).

(** The filter that removes duplicates by unique id: [seen] is the set of
    ids met so far. *)
Fixpoint dedupe (seen : list string) (entries : list Entry) : list Entry :=
  match entries with
  | [] => []
  | entry :: rest =>
      let id := uniqueId entry in
      if existsb (String.eqb id) seen then dedupe seen rest
      else entry :: dedupe (id :: seen) rest
  end.

Definition getAllInteractiveElements (document : list Element) : list Entry :=
  let buttons := getAllButtons document in
  let links := getAllLinks document in
  let inputs := getAllInputs document in
  let searchBars := getAllSearchBars document in
  dedupe [] (searchBars ++ buttons ++ links ++ inputs).

(** Number of catalog entries that refer to a DOM node. *)
Definition entries_for (n : nat) (catalog : list Entry) : nat :=
  List.length (filter (fun entry => (element entry =? n)%nat) catalog).

(** What a pass pushes for an element: an entry of its kind for that DOM
    node, with the unique id of that kind and index. *)
Definition pass_of (kind : string) (f : Element -> nat -> option Entry) : Prop :=
  forall e i entry,
    f e i = Some entry ->
    type entry = kind /\ element entry = node e
    /\ uniqueId entry = generateUniqueId e kind i.

(** *** Local match score *)

(** The display text of an entry:
    [element.text || element.label || element.placeholder || ""]. *)
Definition displayText (e : Entry) : string :=
  or_string (or_else (text e) (or_else (label e) (placeholder e))) EmptyString.

(** The text an entry is matched on: its display text in lower case. *)
Definition elementText (e : Entry) : string := toLowerCase (displayText e).

Definition nonempty (s : string) : bool := negb (String.eqb s EmptyString).

(** The partial word match: 0.1 for each word of the description that is
    longer than two characters and occurs in the element's text. *)
Fixpoint word_matches (elementText : string) (words : list string) (score : Q) : Q :=
  match words with
  | [] => score
  | word :: rest =>
      let score :=
        if (includes elementText word && (2 <? String.length word)%nat)%bool
        then score + (1 # 10) else score in
      word_matches elementText rest score
  end.

(** The score after the text-content step. *)
Definition text_step (e : Entry) (description : string) (score : Q) : Q :=
  let elementText := elementText e in
  if (nonempty elementText && includes description elementText)%bool
  then score + (5 # 10)
  else if nonempty elementText
  then word_matches elementText (split_ws description) score
  else score.

Definition lower_or_empty (a : option string) : string :=
  toLowerCase (or_string a EmptyString).

Definition calculateMatchScore (e : Entry) (description : string) : Q :=
  let score := 0 in
  let score := if includes description (type e) then score + (3 # 10) else score in
  let score := text_step e description score in
  let ariaLabel := lower_or_empty (ariaLabel e) in
  let score :=
    if (nonempty ariaLabel && includes description ariaLabel)%bool
    then score + (4 # 10) else score in
  let placeholder := lower_or_empty (placeholder e) in
  let score :=
    if (nonempty placeholder && includes description placeholder)%bool
    then score + (3 # 10) else score in
  let score :=
    if (String.eqb (type e) "search" && includes description "search")%bool
    then score + (4 # 10) else score in
  Qmin score 1.

(** *** Finding an element by its description *)

(** [a > b] on scores. *)
Definition Qgt_bool (a b : Q) : bool := negb (Qle_bool a b).

(** The [forEach] of [findElementByDescription]: the best match so far and
    its score; a later element replaces it only with a strictly higher
    score. *)
Fixpoint best_of (elements : list Entry) (lowerDesc : string)
         (bestMatch : option Entry) (bestScore : Q) : option Entry * Q :=
  match elements with
  | [] => (bestMatch, bestScore)
  | element :: rest =>
      let score := calculateMatchScore element lowerDesc in
      if Qgt_bool score bestScore
      then best_of rest lowerDesc (Some element) score
      else best_of rest lowerDesc bestMatch bestScore
  end.

(** [findElementByDescription], on the catalog of the last scan. An empty
    description is falsy. The scores are the exact sums here; the search
    on the doubles is [Ieee.findElementByDescription] below. *)
Definition findElementByDescription (detectedElements : list Entry)
           (description : string) : option Entry :=
  if String.eqb description EmptyString then None else
  let lowerDesc := toLowerCase description in
  let '(bestMatch, bestScore) := best_of detectedElements lowerDesc None 0 in
  if Qgt_bool bestScore (3 # 10) then bestMatch else None.

(** *** Statistics *)

(** [stats.byType]: the counters by type, in the order the types were
    first met. *)
Definition counters : Type := list (string * nat).

(** [byType[type] || 0]. *)
Fixpoint counter (byType : counters) (type : string) : nat :=
  match byType with
  | [] => O
  | (t, n) :: rest => if String.eqb type t then n else counter rest type
  end.

(** [byType[type] = n]. *)
Fixpoint set_counter (byType : counters) (type : string) (n : nat) : counters :=
  match byType with
  | [] => [(type, n)]
  | (t, m) :: rest =>
      if String.eqb type t then (t, n) :: rest else (t, m) :: set_counter rest type n
  end.

Record Stats : Type := {
  total : nat;
  byType : counters
}.

Definition getStats (detectedElements : list Entry) : Stats :=
  {| total := List.length detectedElements;
     byType :=
       fold_left
         (fun byType element =>
            set_counter byType (type element) (counter byType (type element) + 1))
         detectedElements [] |}.

(** Number of entries of a type. *)
Definition count_type (t : string) (entries : list Entry) : nat :=
  List.length (filter (fun entry => String.eqb (type entry) t) entries).

(** Sum of the counters. *)
Definition sum_counters (byType : counters) : nat :=
  fold_right (fun c acc => (snd c + acc)%nat) O byType.

(** Whether a string is made of letters, digits and underscores. *)
Fixpoint all_id_chars (s : string) : bool :=
  match s with
  | EmptyString => true
  | String c r => id_char c && all_id_chars r
  end.

(** *** The score and the search in double precision

    The numbers of the code are IEEE 754 doubles and its sums are rounded:
    0.1 + 0.1 + 0.1 is 0.30000000000000004, which is more than 0.3, and
    0.3 + 0.1 + 0.1 + 0.1 is less than 0.1 + 0.1 + 0.1 + 0.3. The bounds on
    a score do not depend on the rounding, and [calculateMatchScore] above
    adds exactly; which element [findElementByDescription] returns does
    depend on it, at the threshold and between scores that are equal as
    fractions. What follows is the same code on the doubles themselves. *)

Module Ieee.
Import PrimFloat.
Import PrimFloat.PrimFloatNotations.

#[local] Set Warnings "-inexact-float".

(** [Math.min(a, b)]: NaN when either is NaN, and -0 is below +0. *)
Definition Math_min (a b : float) : float :=
  if (is_nan a || is_nan b)%bool then nan
  else if (a <? b)%float then a
  else if (b <? a)%float then b
  else match classify a with
       | FloatClass.NZero => a
       | _ => b
       end.

Fixpoint word_matches (elementText : string) (words : list string) (score : float)
  : float :=
  match words with
  | [] => score
  | word :: rest =>
      let score :=
        if (includes elementText word && (2 <? String.length word)%nat)%bool
        then (score + 0.1)%float else score in
      word_matches elementText rest score
  end.

Definition text_step (e : Entry) (description : string) (score : float) : float :=
  let elementText := elementText e in
  if (nonempty elementText && includes description elementText)%bool
  then (score + 0.5)%float
  else if nonempty elementText
  then word_matches elementText (split_ws description) score
  else score.

Definition calculateMatchScore (e : Entry) (description : string) : float :=
  let score := 0%float in
  let score :=
    if includes description (type e) then (score + 0.3)%float else score in
  let score := text_step e description score in
  let ariaLabel := lower_or_empty (ariaLabel e) in
  let score :=
    if (nonempty ariaLabel && includes description ariaLabel)%bool
    then (score + 0.4)%float else score in
  let placeholder := lower_or_empty (placeholder e) in
  let score :=
    if (nonempty placeholder && includes description placeholder)%bool
    then (score + 0.3)%float else score in
  let score :=
    if (String.eqb (type e) "search" && includes description "search")%bool
    then (score + 0.4)%float else score in
  Math_min score 1%float.

(** The [forEach] of [findElementByDescription]; [score > bestScore] is
    false when either is NaN. *)
Fixpoint best_of (elements : list Entry) (lowerDesc : string)
         (bestMatch : option Entry) (bestScore : float) : option Entry * float :=
  match elements with
  | [] => (bestMatch, bestScore)
  | element :: rest =>
      let score := calculateMatchScore element lowerDesc in
      if (bestScore <? score)%float
      then best_of rest lowerDesc (Some element) score
      else best_of rest lowerDesc bestMatch bestScore
  end.

Definition findElementByDescription (detectedElements : list Entry)
           (description : string) : option Entry :=
  if String.eqb description EmptyString then None else
  let lowerDesc := toLowerCase description in
  let '(bestMatch, bestScore) := best_of detectedElements lowerDesc None 0%float in
  if (0.3 <? bestScore)%float then bestMatch else None.

(** The doubles that are zero, positive or plus infinity, and the
    mantissas that are not negative. *)
Definition not_negative (x : SpecFloat.spec_float) : bool :=
  match x with
  | SpecFloat.S754_zero _ => true
  | SpecFloat.S754_infinity s => negb s
  | SpecFloat.S754_nan => false
  | SpecFloat.S754_finite s _ _ => negb s
  end.

Definition Z_not_negative (m : Z) : bool :=
  match m with
  | Zneg _ => false
  | _ => true
  end.

End Ieee.

End ElementDetector.

(** ** The action executor: action-executor.js *)

Module ActionExecutor.
Import JsString JsValue.

(** The style properties the highlight touches. *)
Record Style : Type := {
  outline : string;
  outlineOffset : string;
  zIndex : string
}.

(** An [HTMLElement], as far as the executor reads and writes it. *)
Record HTMLElement : Type := {
  tagName : string;                 (* upper case for HTML elements *)
  type : option string;             (* [element.type]; [None] when absent *)
  value : string;
  style : Style;
  inDocument : bool;                (* [document.body.contains(element)] *)
  events : list string              (* types of the events dispatched on it, oldest first *)
}.

(** A reference to an element of the page. *)
Definition ref : Type := nat.

Record Highlight : Type := {
  h_element : ref;
  originalOutline : string;
  originalOutlineOffset : string;
  originalZIndex : string
}.

Record Action : Type := {
  a_type : string;
  a_element : ref;
  a_text : option string;
  timestamp : nat
}.

(** The page and the executor: the elements by reference, the focused
    element, the executor's two fields, the action labels attached to the
    body, the clock (in ms) and the pending highlight removals, each with
    its deadline and its label. *)
Record World : Type := {
  dom : ref -> HTMLElement;
  activeElement : option ref;
  scrolledTo : option ref;
  highlightedElement : option Highlight;
  lastAction : option Action;
  labels : list (nat * string);
  nextLabel : nat;
  now : nat;
  timers : list (nat * nat)
}.

Definition write (w : World) (r : ref) (e : HTMLElement) : World :=
  {| dom := fun r' => if (r' =? r)%nat then e else dom w r';
     activeElement := activeElement w; scrolledTo := scrolledTo w;
     highlightedElement := highlightedElement w; lastAction := lastAction w;
     labels := labels w; nextLabel := nextLabel w; now := now w;
     timers := timers w |}.

Definition set_value (v : string) (e : HTMLElement) : HTMLElement :=
  {| tagName := tagName e; type := type e; value := v; style := style e;
     inDocument := inDocument e; events := events e |}.

Definition set_style (s : Style) (e : HTMLElement) : HTMLElement :=
  {| tagName := tagName e; type := type e; value := value e; style := s;
     inDocument := inDocument e; events := events e |}.

(** [element.dispatchEvent(new Event(t, { bubbles: true }))]. *)
Definition dispatchEvent (t : string) (e : HTMLElement) : HTMLElement :=
  {| tagName := tagName e; type := type e; value := value e; style := style e;
     inDocument := inDocument e; events := events e ++ [t] |}.

Definition with_highlight (h : option Highlight) (w : World) : World :=
  {| dom := dom w; activeElement := activeElement w; scrolledTo := scrolledTo w;
     highlightedElement := h; lastAction := lastAction w;
     labels := labels w; nextLabel := nextLabel w; now := now w;
     timers := timers w |}.

Definition removeHighlight (w : World) : World :=
  match highlightedElement w with
  | Some h =>
      let e := dom w (h_element h) in
      let restored :=
        {| outline := originalOutline h;
           outlineOffset := originalOutlineOffset h;
           zIndex := originalZIndex h |} in
      with_highlight None (write w (h_element h) (set_style restored e))
  | None => w
  end.

Definition actionText (actionType : string) : string :=
  if String.eqb actionType "click" then "Clicking"
  else if String.eqb actionType "type" then "Typing"
  else if String.eqb actionType "focus" then "Focusing"
  else "Action".

(** [createActionLabel]: a new label is appended to the body; the result
    is the label's number. *)
Definition createActionLabel (actionType : string) (w : World) : nat * World :=
  (nextLabel w,
   {| dom := dom w; activeElement := activeElement w; scrolledTo := scrolledTo w;
      highlightedElement := highlightedElement w; lastAction := lastAction w;
      labels := labels w ++ [(nextLabel w, actionText actionType)];
      nextLabel := S (nextLabel w); now := now w; timers := timers w |}).

(** [setTimeout(() => { removeHighlight(); label.remove() }, delay)]. *)
Definition setTimeout (label delay : nat) (w : World) : World :=
  {| dom := dom w; activeElement := activeElement w; scrolledTo := scrolledTo w;
     highlightedElement := highlightedElement w; lastAction := lastAction w;
     labels := labels w; nextLabel := nextLabel w; now := now w;
     timers := timers w ++ [((now w + delay)%nat, label)] |}.

Definition highlightElement (element : ref) (actionType : string) (w : World) : World :=
  let w := match highlightedElement w with
           | Some _ => removeHighlight w
           | None => w
           end in
  let e := dom w element in
  let h := {| h_element := element;
              originalOutline := outline (style e);
              originalOutlineOffset := outlineOffset (style e);
              originalZIndex := zIndex (style e) |} in
  let lit := {| outline := "3px solid #FFD700"; outlineOffset := "2px";
                zIndex := "999999" |} in
  let w := write w element (set_style lit e) in
  let w := with_highlight (Some h) w in
  let '(label, w) := createActionLabel actionType w in
  setTimeout label 1500 w.

(** The callback of a highlight timer. *)
Definition fire (label : nat) (w : World) : World :=
  let w := removeHighlight w in
  {| dom := dom w; activeElement := activeElement w; scrolledTo := scrolledTo w;
     highlightedElement := highlightedElement w; lastAction := lastAction w;
     labels := filter (fun l => negb (fst l =? label)%nat) (labels w);
     nextLabel := nextLabel w; now := now w; timers := timers w |}.

(** [await this.sleep(ms)]: the clock advances by [ms]; the timers that
    are due by then run first, in the order they were set. *)
Definition sleep (ms : nat) (w : World) : World :=
  let deadline := (now w + ms)%nat in
  let due := filter (fun t => (fst t <=? deadline)%nat) (timers w) in
  let later := filter (fun t => negb (fst t <=? deadline)%nat) (timers w) in
  let w := fold_left (fun w t => fire (snd t) w) due w in
  {| dom := dom w; activeElement := activeElement w; scrolledTo := scrolledTo w;
     highlightedElement := highlightedElement w; lastAction := lastAction w;
     labels := labels w; nextLabel := nextLabel w; now := deadline;
     timers := later |}.

Definition scrollIntoView (element : ref) (w : World) : World :=
  {| dom := dom w; activeElement := activeElement w; scrolledTo := Some element;
     highlightedElement := highlightedElement w; lastAction := lastAction w;
     labels := labels w; nextLabel := nextLabel w; now := now w;
     timers := timers w |}.

(** The browser's part in an action. What these three operations do is
    not in the executor's code, so the executor is modelled for every
    host.

    [setValue r v] is the assignment [element.value = v] on the element
    [r]: the setter stores a string, which need not be [v] (a text input
    strips the line breaks), or throws (a file input accepts the empty
    string only). What it stores depends on the element and on [v], not on
    the value the element holds.

    [focus r] is [element.focus()] and [click r] is [element.click()], as
    functions of the elements and the active element: an element that
    cannot take the focus keeps the page as it is, a disabled control
    receives no click, and both run whatever the page has attached to the
    events they dispatch. *)
Inductive Assignment : Type :=
| Stored (v : string)
| Thrown (message : string).

(** What [focus()] and [click()] work on: the elements and the active
    element. *)
Definition Page : Type := (ref -> HTMLElement) * option ref.

Record Host : Type := {
  setValue : ref -> string -> Assignment;
  focus : ref -> Page -> Page;
  click : ref -> Page -> Page
}.

(** The world after the host has worked on its page. *)
Definition on_page (f : Page -> Page) (w : World) : World :=
  let page := f (dom w, activeElement w) in
  {| dom := fst page; activeElement := snd page; scrolledTo := scrolledTo w;
     highlightedElement := highlightedElement w; lastAction := lastAction w;
     labels := labels w; nextLabel := nextLabel w; now := now w;
     timers := timers w |}.

(** [element.value = v]: the world with the stored string, or the message
    of the exception. *)
Definition assign (host : Host) (element : ref) (v : string) (w : World)
  : World + string :=
  match setValue host element v with
  | Stored s => inl (write w element (set_value s (dom w element)))
  | Thrown message => inr message
  end.

Definition record_action (a : Action) (w : World) : World :=
  {| dom := dom w; activeElement := activeElement w; scrolledTo := scrolledTo w;
     highlightedElement := highlightedElement w; lastAction := Some a;
     labels := labels w; nextLabel := nextLabel w; now := now w;
     timers := timers w |}.

(** The [options] argument. A field that is not given is [VUndefined]. *)
Record Options : Type := {
  highlight : JsValue.value;
  delay : JsValue.value;
  clear : JsValue.value
}.

(** [v !== false]. *)
Definition not_false (v : JsValue.value) : bool :=
  match v with
  | VBool false => false
  | _ => true
  end.

(** [options.delay || 300], as a whole number of milliseconds. *)
Definition delay_ms (v : JsValue.value) : nat :=
  if truthy v then
    match ToNumber v with
    | Finite q => Z.to_nat (Qfloor q)
    | _ => 0
    end
  else 300.

(** The result object of an action. *)
Record Result : Type := {
  success : bool;
  action : option string;
  r_text : option string;
  error : option string
}.

Definition not_found : Result :=
  {| success := false; action := None; r_text := None;
     error := Some "Element not found" |}.

(** The result of the [catch] branch: [{ success: false, error:
    error.message }]. *)
Definition failed (message : string) : Result :=
  {| success := false; action := None; r_text := None; error := Some message |}.

(** [executeType]. An exception of the value setter ends the [try] block
    where it is thrown: nothing that follows the assignment is run, and the
    [catch] branch returns the message. The listeners of the page for the
    [input] and [change] events are not part of the model. *)
Definition executeType (host : Host) (element : option ref) (text : string)
           (options : Options) (w : World) : Result * World :=
  match element with
  | None => (not_found, w)
  | Some element =>
      let w := if not_false (highlight options)
               then highlightElement element "type" w else w in
      let w := scrollIntoView element w in
      let w := sleep (delay_ms (delay options)) w in
      let w := on_page (focus host element) w in
      match (if not_false (clear options)
             then assign host element EmptyString w else inl w) with
      | inr message => (failed message, w)
      | inl w =>
          match assign host element text w with
          | inr message => (failed message, w)
          | inl w =>
              let w := write w element (dispatchEvent "input" (dom w element)) in
              let w := write w element (dispatchEvent "change" (dom w element)) in
              let w := record_action {| a_type := "type"; a_element := element;
                                        a_text := Some text; timestamp := now w |} w in
              ({| success := true; action := Some "type"; r_text := Some text;
                  error := None |}, w)
          end
      end
  end.

(** The result of [validateAction]; an absent [needsConfirmation] is
    [false]. *)
Record Validation : Type := {
  safe : bool;
  needsConfirmation : bool;
  reason : option string
}.

Definition safeActions : list string := ["click"; "scroll"; "focus"; "type"].

Definition validateAction (actionType : string) (element : option HTMLElement) : Validation :=
  if negb (existsb (String.eqb actionType) safeActions) then
    {| safe := false; needsConfirmation := false;
       reason := Some ("Action type " ++ Json.quoted actionType
                       ++ " is not whitelisted")%string |}
  else
  match element with
  | None =>
      if negb (String.eqb actionType "scroll")
      then {| safe := false; needsConfirmation := false;
              reason := Some "Target element not found" |}
      else {| safe := true; needsConfirmation := false; reason := None |}
  | Some e =>
      if negb (inDocument e)
      then {| safe := false; needsConfirmation := false;
              reason := Some "Element is no longer in document" |}
      else
        let tagName := toLowerCase (tagName e) in
        let type := option_map toLowerCase (type e) in
        let type_is (t : string) :=
          match type with
          | Some x => String.eqb x t
          | None => false
          end in
        if (String.eqb tagName "input" && type_is "file")%bool
        then {| safe := false; needsConfirmation := false;
                reason := Some "File inputs are not allowed" |}
        else if (String.eqb tagName "input" && type_is "password")%bool
        then {| safe := true; needsConfirmation := true;
                reason := Some "Action involves password field" |}
        else if ((String.eqb tagName "button" && type_is "submit")
                 || (String.eqb tagName "input" && type_is "submit"))%bool
        then {| safe := true; needsConfirmation := true;
                reason := Some "Action will submit a form" |}
        else {| safe := true; needsConfirmation := false; reason := None |}
  end.

(** *** The other actions on an element *)

(** [executeFocus]: as [executeType] up to the focus, without touching the
    value. *)
Definition executeFocus (host : Host) (element : option ref) (options : Options)
           (w : World) : Result * World :=
  match element with
  | None => (not_found, w)
  | Some element =>
      let w := if not_false (highlight options)
               then highlightElement element "focus" w else w in
      let w := scrollIntoView element w in
      let w := sleep (delay_ms (delay options)) w in
      let w := on_page (focus host element) w in
      let w := record_action {| a_type := "focus"; a_element := element;
                                a_text := None; timestamp := now w |} w in
      ({| success := true; action := Some "focus"; r_text := None;
          error := None |}, w)
  end.

(** The result of [executeClick]. *)
Record ClickResult : Type := {
  c_success : bool;
  c_action : option string;
  elementText : option string;
  c_error : option string
}.

(** [element.textContent?.trim() || element.value || "element"], read
    after the click; [textContent] is the text content then ([None] for
    [null]). *)
Definition shown_text (textContent : option string) (e : HTMLElement) : string :=
  let trimmed :=
    match option_map trim textContent with
    | Some t => if String.eqb t EmptyString then None else Some t
    | None => None
    end in
  match trimmed with
  | Some t => t
  | None => if String.eqb (value e) EmptyString then "element" else value e
  end.

(** [executeClick]. *)
Definition executeClick (host : Host) (textContent : ref -> option string)
           (element : option ref) (options : Options) (w : World)
  : ClickResult * World :=
  match element with
  | None =>
      ({| c_success := false; c_action := None; elementText := None;
          c_error := Some "Element not found" |}, w)
  | Some element =>
      let w := if not_false (highlight options)
               then highlightElement element "click" w else w in
      let w := scrollIntoView element w in
      let w := sleep (delay_ms (delay options)) w in
      let w := on_page (click host element) w in
      let w := record_action {| a_type := "click"; a_element := element;
                                a_text := None; timestamp := now w |} w in
      ({| c_success := true; c_action := Some "click";
          elementText := Some (shown_text (textContent element) (dom w element));
          c_error := None |}, w)
  end.

(** [getLastAction]. *)
Definition getLastAction (w : World) : option Action := lastAction w.

(** *** Scrolling and navigating *)

(** A call on the window, its history or its location. *)
Inductive HostCall : Type :=
| scrollBy_top (top : number)
| scrollBy_left (left : number)
| scrollTo_top (top : number)
| history_back
| history_forward
| location_reload.

(** What scrolling and navigating read and write: the calls made so far
    (oldest first), [document.body.scrollHeight], the clock, and the
    executor's [lastAction] as the object it is. *)
Record Window : Type := {
  calls : list HostCall;
  scrollHeight : number;
  clock : nat;
  lastWindowAction : option object
}.

Definition call (c : HostCall) (win : Window) : Window :=
  {| calls := calls win ++ [c]; scrollHeight := scrollHeight win;
     clock := clock win; lastWindowAction := lastWindowAction win |}.

Definition record_window_action (a : object) (win : Window) : Window :=
  {| calls := calls win; scrollHeight := scrollHeight win;
     clock := clock win; lastWindowAction := Some a |}.

(** [Date.now()]. *)
Definition timestamp_of (win : Window) : JsValue.value :=
  VNumber (Finite (inject_Z (Z.of_nat (clock win)))).

(** [options.amount || 500], as the number the window receives. *)
Definition amount_of (amount : JsValue.value) : number :=
  if truthy amount then ToNumber amount else Finite 500.

(** The call a direction stands for, if any. *)
Definition scroll_call (direction : string) (amount : number) (win : Window)
  : option HostCall :=
  let d := toLowerCase direction in
  if String.eqb d "up" then Some (scrollBy_top (num_neg amount))
  else if String.eqb d "down" then Some (scrollBy_top amount)
  else if String.eqb d "top" then Some (scrollTo_top (Finite 0))
  else if String.eqb d "bottom" then Some (scrollTo_top (scrollHeight win))
  else if String.eqb d "left" then Some (scrollBy_left (num_neg amount))
  else if String.eqb d "right" then Some (scrollBy_left amount)
  else None.

Definition executeScroll (direction : string) (amount : JsValue.value) (win : Window)
  : object * Window :=
  match scroll_call direction (amount_of amount) win with
  | None =>
      ([("success", VBool false);
        ("error", VString ("Unknown direction: " ++ direction))], win)
  | Some c =>
      let win := call c win in
      let win :=
        record_window_action
          [("type", VString "scroll"); ("direction", VString direction);
           ("timestamp", timestamp_of win)] win in
      ([("success", VBool true); ("action", VString "scroll");
        ("direction", VString direction)], win)
  end.

Definition navigate_call (action : string) : option HostCall :=
  let a := toLowerCase action in
  if String.eqb a "back" then Some history_back
  else if String.eqb a "forward" then Some history_forward
  else if (String.eqb a "refresh" || String.eqb a "reload")%bool
  then Some location_reload
  else None.

Definition executeNavigate (action : string) (win : Window) : object * Window :=
  match navigate_call action with
  | None =>
      ([("success", VBool false);
        ("error", VString ("Unknown navigation: " ++ action))], win)
  | Some c =>
      let win := call c win in
      let win :=
        record_window_action
          [("type", VString "navigate"); ("action", VString action);
           ("timestamp", timestamp_of win)] win in
      ([("success", VBool true); ("action", VString "navigate");
        ("navigationAction", VString action)], win)
  end.

(** Everything of an element but its style. *)
Definition data_of (e : HTMLElement)
  : string * option string * string * bool * list string :=
  (tagName e, type e, value e, inDocument e, events e).

(** The directions [executeScroll] knows and the actions
    [executeNavigate] knows, in lower case. *)
Definition scroll_directions : list string :=
  ["up"; "down"; "top"; "bottom"; "left"; "right"].

Definition navigate_actions : list string :=
  ["back"; "forward"; "refresh"; "reload"].

End ActionExecutor.

(** ** Inputs used in the examples *)

Module Examples.
Import JsString JsValue Json IntentClassifier.

(** A page with one element: a visible search box,
    [<input type="search" id="q" class="big box" placeholder="Search products">]. *)
Definition search_box : ElementDetector.Element :=
  {| ElementDetector.node := 7;
     ElementDetector.tagName := "input";
     ElementDetector.attributes :=
       [("type", "search"); ("id", "q"); ("class", "big box");
        ("placeholder", "Search products")];
     ElementDetector.typeProperty := "search";
     ElementDetector.textContent := EmptyString;
     ElementDetector.innerText := EmptyString;
     ElementDetector.valueProperty := Some EmptyString;
     ElementDetector.display := "block";
     ElementDetector.visibility := "visible";
     ElementDetector.opacity := "1";
     ElementDetector.rect :=
       {| ElementDetector.top := 10; ElementDetector.left := 20;
          ElementDetector.width := 200; ElementDetector.height := 30 |};
     ElementDetector.inSearchRole := false;
     ElementDetector.labelFor := None;
     ElementDetector.closestLabel := None |}.

(** The catalog entry of a button labelled "login". *)
Definition login_button : ElementDetector.Entry :=
  {| ElementDetector.type := "button";
     ElementDetector.element := 3;
     ElementDetector.text := Some "login";
     ElementDetector.href := None;
     ElementDetector.inputType := None;
     ElementDetector.placeholder := None;
     ElementDetector.ariaLabel := None;
     ElementDetector.label := None;
     ElementDetector.id := EmptyString;
     ElementDetector.name := None;
     ElementDetector.className := EmptyString;
     ElementDetector.position :=
       {| ElementDetector.p_top := 0; ElementDetector.p_left := 0;
          ElementDetector.p_bottom := 20; ElementDetector.p_right := 80;
          ElementDetector.p_width := 80; ElementDetector.p_height := 20;
          ElementDetector.p_centerX := 40; ElementDetector.p_centerY := 10 |};
     ElementDetector.uniqueId := "button___login_0" |}.

(** The catalog entry of the search box, as the search pass builds it. *)
Definition search_entry_of_box : ElementDetector.Entry :=
  Eval vm_compute in
    match ElementDetector.search_entry search_box 0 with
    | Some entry => entry
    | None => login_button
    end.

Definition plain_style : ActionExecutor.Style :=
  {| ActionExecutor.outline := EmptyString;
     ActionExecutor.outlineOffset := EmptyString;
     ActionExecutor.zIndex := EmptyString |}.

(** [<input type="file">], attached to the document. *)
Definition file_input : ActionExecutor.HTMLElement :=
  {| ActionExecutor.tagName := "INPUT";
     ActionExecutor.type := Some "file";
     ActionExecutor.value := EmptyString;
     ActionExecutor.style := plain_style;
     ActionExecutor.inDocument := true;
     ActionExecutor.events := [] |}.

(** A text field that already holds "old text". *)
Definition text_field : ActionExecutor.HTMLElement :=
  {| ActionExecutor.tagName := "INPUT";
     ActionExecutor.type := Some "text";
     ActionExecutor.value := "old text";
     ActionExecutor.style := plain_style;
     ActionExecutor.inDocument := true;
     ActionExecutor.events := [] |}.

(** A page whose every element is that text field; nothing is highlighted
    and no timer is pending. *)
Definition quiet_page : ActionExecutor.World :=
  {| ActionExecutor.dom := fun _ => text_field;
     ActionExecutor.activeElement := None;
     ActionExecutor.scrolledTo := None;
     ActionExecutor.highlightedElement := None;
     ActionExecutor.lastAction := None;
     ActionExecutor.labels := [];
     ActionExecutor.nextLabel := 0;
     ActionExecutor.now := 0;
     ActionExecutor.timers := [] |}.

Definition default_options : ActionExecutor.Options :=
  {| ActionExecutor.highlight := VUndefined;
     ActionExecutor.delay := VUndefined;
     ActionExecutor.clear := VUndefined |}.



(** Events dispatched one after the other on one element of a page. *)
Definition dispatch_on (r : ActionExecutor.ref) (types : list string)
           (elements : ActionExecutor.ref -> ActionExecutor.HTMLElement)
  : ActionExecutor.ref -> ActionExecutor.HTMLElement :=
  fun r' =>
    if (r' =? r)%nat
    then fold_left (fun e t => ActionExecutor.dispatchEvent t e) types (elements r')
    else elements r'.

(** [element.focus()] where every element can take the focus and the
    window has it (the focus update steps of the HTML Standard): nothing
    happens when the element is the active one; otherwise the element that
    was active receives [blur] and [focusout], the element receives
    [focus] and [focusin] and is the active element. *)
Definition focus_on_page (element : ActionExecutor.ref) (page : ActionExecutor.Page)
  : ActionExecutor.Page :=
  match snd page with
  | Some active =>
      if (active =? element)%nat then page
      else (dispatch_on element ["focus"; "focusin"]
              (dispatch_on active ["blur"; "focusout"] (fst page)),
            Some element)
  | None => (dispatch_on element ["focus"; "focusin"] (fst page), Some element)
  end.

(** [element.click()] on a control that is enabled and has no activation
    behaviour, a text input for one: it receives a click event. *)
Definition click_on_page (element : ActionExecutor.ref) (page : ActionExecutor.Page)
  : ActionExecutor.Page :=
  (dispatch_on element ["click"] (fst page), snd page).


(** The host of a page of file inputs: the value setter accepts the empty
    string and throws an [InvalidStateError] for any other. *)
Definition file_inputs : ActionExecutor.Host :=
  {| ActionExecutor.setValue :=
       fun _ v =>
         if String.eqb v EmptyString then ActionExecutor.Stored EmptyString
         else ActionExecutor.Thrown
                "This input element accepts a filename, which may only be programmatically set to the empty string.";
     ActionExecutor.focus := focus_on_page;
     ActionExecutor.click := click_on_page |}.

(** A page whose every element is the file input. *)
Definition upload_page : ActionExecutor.World :=
  {| ActionExecutor.dom := fun _ => file_input;
     ActionExecutor.activeElement := None;
     ActionExecutor.scrolledTo := None;
     ActionExecutor.highlightedElement := None;
     ActionExecutor.lastAction := None;
     ActionExecutor.labels := [];
     ActionExecutor.nextLabel := 0;
     ActionExecutor.now := 0;
     ActionExecutor.timers := [] |}.


(** The catalog entry of a text input labelled "Login", with the
    placeholder "here". *)
Definition login_field : ElementDetector.Entry :=
  {| ElementDetector.type := "input";
     ElementDetector.element := 5;
     ElementDetector.text := None;
     ElementDetector.href := None;
     ElementDetector.inputType := Some "text";
     ElementDetector.placeholder := Some "here";
     ElementDetector.ariaLabel := None;
     ElementDetector.label := Some "Login";
     ElementDetector.id := EmptyString;
     ElementDetector.name := Some EmptyString;
     ElementDetector.className := EmptyString;
     ElementDetector.position :=
       {| ElementDetector.p_top := 40; ElementDetector.p_left := 0;
          ElementDetector.p_bottom := 60; ElementDetector.p_right := 160;
          ElementDetector.p_width := 160; ElementDetector.p_height := 20;
          ElementDetector.p_centerX := 80; ElementDetector.p_centerY := 50 |};
     ElementDetector.uniqueId := "input____0" |}.

(** A JSON member [name: v], with the name between quotes. *)
Definition member (name v : string) : string := (quoted name ++ ": " ++ v)%string.


(** The reply [{"isAction": false, "actionType": ""}]. *)
Definition reply_empty_actionType : string :=
  ("{" ++ member "isAction" "false" ++ ", "
       ++ member "actionType" (quoted EmptyString) ++ "}")%string.

(** The reply [{"isAction": false, "actionType": "click"}]. *)
Definition reply_no_confidence : string :=
  ("{" ++ member "isAction" "false" ++ ", "
       ++ member "actionType" (quoted "click") ++ "}")%string.





End Examples.

(** ** Further inputs *)

Module Scenarios.
Import JsString JsValue Json IntentClassifier Examples.



(** The reply of the prompt's first example, for "Type Krishna in Go to
    file". *)
Definition reply_type : string :=
  ("{" ++ member "isAction" "true" ++ ", " ++ member "confidence" "0.95" ++ ", "
       ++ member "actionType" (quoted "type") ++ ", "
       ++ member "targetDescription" (quoted "Go to file") ++ ", "
       ++ member "additionalData" (quoted "Krishna") ++ ", "
       ++ member "reasoning" (quoted "Type action") ++ "}")%string.

Definition parsed_type : object :=
  Eval vm_compute in
    match parse_intent reply_type with
    | Some intent => intent
    | None => []
    end.

(** A visible link, [<a href="/docs" id="docs">Documentation</a>], 120 by
    18, and its catalog entry. *)
Definition docs_link : ElementDetector.Element :=
  {| ElementDetector.node := 9;
     ElementDetector.tagName := "a";
     ElementDetector.attributes := [("href", "/docs"); ("id", "docs")];
     ElementDetector.typeProperty := EmptyString;
     ElementDetector.textContent := "Documentation";
     ElementDetector.innerText := "Documentation";
     ElementDetector.valueProperty := None;
     ElementDetector.display := "inline";
     ElementDetector.visibility := "visible";
     ElementDetector.opacity := "1";
     ElementDetector.rect :=
       {| ElementDetector.top := 4; ElementDetector.left := 300;
          ElementDetector.width := 120; ElementDetector.height := 18 |};
     ElementDetector.inSearchRole := false;
     ElementDetector.labelFor := None;
     ElementDetector.closestLabel := None |}.

Definition docs_entry : ElementDetector.Entry :=
  Eval vm_compute in
    match ElementDetector.link_entry docs_link 0 with
    | Some entry => entry
    | None => login_button
    end.

(** A page on which the element 2 was highlighted 1000 ms ago: its
    outline is the highlight, the executor remembers the style it had
    ("1px dotted red"), and the removal is due in 500 ms. *)
Definition highlighted_page : ActionExecutor.World :=
  {| ActionExecutor.dom :=
       fun r =>
         if (r =? 2)%nat
         then ActionExecutor.set_style
                {| ActionExecutor.outline := "3px solid #FFD700";
                   ActionExecutor.outlineOffset := "2px";
                   ActionExecutor.zIndex := "999999" |} text_field
         else text_field;
     ActionExecutor.activeElement := None;
     ActionExecutor.scrolledTo := Some 2%nat;
     ActionExecutor.highlightedElement :=
       Some {| ActionExecutor.h_element := 2%nat;
               ActionExecutor.originalOutline := "1px dotted red";
               ActionExecutor.originalOutlineOffset := EmptyString;
               ActionExecutor.originalZIndex := "3" |};
     ActionExecutor.lastAction := None;
     ActionExecutor.labels := [(0%nat, "Clicking")];
     ActionExecutor.nextLabel := 1;
     ActionExecutor.now := 1000;
     ActionExecutor.timers := [(1500%nat, 0%nat)] |}.

(** A window scrolled nowhere yet. *)
Definition fresh_window : ActionExecutor.Window :=
  {| ActionExecutor.calls := [];
     ActionExecutor.scrollHeight := Finite 4000;
     ActionExecutor.clock := 0;
     ActionExecutor.lastWindowAction := None |}.

(** [<input type="password">] and a submit button, attached. *)
Definition password_input : ActionExecutor.HTMLElement :=
  {| ActionExecutor.tagName := "INPUT";
     ActionExecutor.type := Some "password";
     ActionExecutor.value := EmptyString;
     ActionExecutor.style := plain_style;
     ActionExecutor.inDocument := true;
     ActionExecutor.events := [] |}.

End Scenarios.

(* ================================================================== *)
(** * Part II. Properties                                               *)
(* ================================================================== *)

Import JsString JsValue.

(** ** Strings *)

Lemma startsWith_refl (s : string) : startsWith s s = true.
Proof.
  induction s as [|c s IH]; simpl; [reflexivity|].
  now rewrite Ascii.eqb_refl, IH.
Qed.

Lemma startsWith_app (s k t : string) :
  startsWith s k = true -> startsWith (s ++ t) k = true.
Proof.
  revert k; induction s as [|c s IH]; intros [|a k]; simpl; intros H;
    try reflexivity; try discriminate.
  - now destruct t.
  - apply andb_true_iff in H as [Ha Hk].
    now rewrite Ha, (IH _ Hk).
Qed.

(** A substring of the description is still one after something is appended. *)
Lemma includes_app_l (s k t : string) :
  includes s k = true -> includes (s ++ t) k = true.
Proof.
  induction s as [|c s IH]; simpl; intros H.
  - destruct k; [|discriminate].
    destruct t; reflexivity.
  - apply orb_true_iff in H as [H|H]; apply orb_true_iff.
    + left. exact (startsWith_app (String c s) k t H).
    + right. auto.
Qed.

(** A string contains what was appended to it. *)
Lemma includes_app_r (s k : string) : includes (s ++ k) k = true.
Proof.
  induction s as [|c s IH]; simpl.
  - destruct k; simpl; [reflexivity|].
    now rewrite Ascii.eqb_refl, startsWith_refl.
  - rewrite IH. apply orb_true_r.
Qed.

Lemma includes_app_mid (s t k : string) : includes (s ++ t ++ k) k = true.
Proof.
  replace (s ++ t ++ k)%string with ((s ++ t) ++ k)%string.
  - apply includes_app_r.
  - induction s as [|c s IH]; simpl; [reflexivity|now rewrite IH].
Qed.

Lemma toLowerCase_app (a b : string) :
  toLowerCase (a ++ b) = (toLowerCase a ++ toLowerCase b)%string.
Proof. induction a as [|c a IH]; simpl; [reflexivity|now rewrite IH]. Qed.

(** ** Objects *)

Lemma get_set_same (o : object) (k : string) (v : value) : get (set o k v) k = v.
Proof.
  induction o as [|[k' v'] o IH]; simpl.
  - now rewrite String.eqb_refl.
  - destruct (String.eqb k k') eqn:E; simpl.
    + now rewrite String.eqb_refl.
    + now rewrite E.
Qed.

Lemma get_set_other (o : object) (k k' : string) (v : value) :
  k' <> k -> get (set o k v) k' = get o k'.
Proof.
  intros Hne. apply String.eqb_neq in Hne.
  induction o as [|[k0 v0] o IH]; simpl.
  - now rewrite Hne.
  - destruct (String.eqb k k0) eqn:E; simpl.
    + apply String.eqb_eq in E; subst k0. now rewrite Hne.
    + now rewrite IH.
Qed.

Ltac get_set :=
  repeat first [ rewrite get_set_same | rewrite get_set_other by discriminate ].

(** ** The intent classifier *)

Section Classifier.
Import IntentClassifier.

(** A validated intent has a boolean [isAction]. *)
Lemma parse_intent_boolean (response : string) (intent : object) :
  parse_intent response = Some intent ->
  exists b, get intent "isAction" = VBool b.
Proof.
  unfold parse_intent.
  destruct (jsonMatch _) as [jsonStr|]; [|discriminate].
  destruct (Json.parse _) as [[| | | | | |o]|]; try discriminate.
  destruct (get o "isAction") as [| |b| | | |] eqn:E; simpl; try discriminate.
  intros H; injection H as <-. now exists b.
Qed.

Lemma consistency_repair_fires (intent : object) :
  truthy (get intent "actionType") = true ->
  truthy (get intent "isAction") = false ->
  get (consistency_repair intent) "isAction" = VBool true
  /\ get (consistency_repair intent) "reasoning" = VString "Fixed: actionType detected"
  /\ get (consistency_repair intent) "confidence"
     = VNumber (Math_max (ToNumber (get intent "confidence")) (Finite (8 # 10)))
  /\ get (consistency_repair intent) "actionType" = get intent "actionType".
Proof.
  intros Ht Ha. unfold consistency_repair. rewrite Ht, Ha; cbn [negb andb].
  repeat split; get_set; reflexivity.
Qed.

Lemma consistency_repair_idle (intent : object) :
  (truthy (get intent "actionType") && negb (truthy (get intent "isAction")))%bool = false ->
  consistency_repair intent = intent.
Proof. intros H. unfold consistency_repair. now rewrite H. Qed.

Lemma heuristic_override_of_action (userInput : string) (intent : object) :
  truthy (get intent "isAction") = true ->
  heuristic_override userInput intent = intent.
Proof. intros H. unfold heuristic_override. now rewrite H. Qed.

Lemma heuristic_override_of_information (userInput : string) (intent : object) :
  some_included Override.informationKeywords (toLowerCase userInput) = true ->
  heuristic_override userInput intent = intent.
Proof.
  intros H. unfold heuristic_override. rewrite H. now destruct (negb _).
Qed.

Lemma heuristic_override_actionType (userInput : string) (intent : object) :
  get (heuristic_override userInput intent) "actionType" = get intent "actionType".
Proof.
  unfold heuristic_override.
  destruct (negb _); [|reflexivity].
  destruct (some_included Override.informationKeywords _); [reflexivity|].
  destruct (some_included Override.actionKeywords _); [|reflexivity].
  get_set; reflexivity.
Qed.

(** The override stage only ever turns a question into an action. *)
Lemma heuristic_override_isAction (userInput : string) (intent : object) (b : bool) :
  get intent "isAction" = VBool b ->
  get (heuristic_override userInput intent) "isAction"
  = VBool (b || (negb (some_included Override.informationKeywords (toLowerCase userInput))
                 && some_included Override.actionKeywords (toLowerCase userInput))).
Proof.
  intros Hb. unfold heuristic_override. rewrite Hb.
  destruct b; cbn [truthy negb orb]; [exact Hb|].
  destruct (some_included Override.informationKeywords (toLowerCase userInput));
    cbn [negb andb]; [exact Hb|].
  destruct (some_included Override.actionKeywords (toLowerCase userInput));
    [|exact Hb].
  get_set; reflexivity.
Qed.

End Classifier.

Section ClassifierClaims.
Import IntentClassifier Examples.

(** C1, as stated, fails: for the reply [{"isAction": false, "actionType": ""}]
    and the utterance "hello" the returned intent has an [actionType] that is
    not null (the empty string) and [isAction] false. *)
Lemma actionType_not_null_counterexample :
  nullish (get (detectActionIntent "hello" (Resolved reply_empty_actionType)) "actionType")
  = false
  /\ get (detectActionIntent "hello" (Resolved reply_empty_actionType)) "isAction"
     = VBool false.
Proof. split; vm_compute; reflexivity. Qed.

(** C1, amended: on every return path of [detectActionIntent] (valid reply,
    repaired reply, overridden reply, parse failure, failed model call), an
    [actionType] that is truthy (not null, not undefined, not the empty
    string, not 0, not false) comes with [isAction] equal to true. *)
Theorem actionType_implies_isAction (userInput : string) (outcome : prompt_outcome) :
  truthy (get (detectActionIntent userInput outcome) "actionType") = true ->
  get (detectActionIntent userInput outcome) "isAction" = VBool true.
Proof.
  destruct outcome as [error|response]; cbn [detectActionIntent].
  - cbn. discriminate.
  - destruct (parse_intent response) as [intent|] eqn:Hparse.
    + destruct (parse_intent_boolean _ _ Hparse) as [b Hb].
      rewrite heuristic_override_actionType. intros Htype.
      destruct (truthy (get intent "actionType")) eqn:Ht, b.
      * rewrite consistency_repair_idle in * by (rewrite Ht, Hb; reflexivity).
        rewrite (heuristic_override_isAction _ _ true Hb). reflexivity.
      * destruct (consistency_repair_fires intent Ht) as (Ha & _).
        { rewrite Hb; reflexivity. }
        rewrite (heuristic_override_isAction _ _ true Ha). reflexivity.
      * rewrite consistency_repair_idle in Htype by (rewrite Ht; reflexivity).
        congruence.
      * rewrite consistency_repair_idle in Htype by (rewrite Ht; reflexivity).
        congruence.
    + cbn. discriminate.
Qed.

Lemma actionType_implies_isAction_witness :
  truthy (get (detectActionIntent "hello" (Resolved reply_no_confidence)) "actionType") = true
  /\ get (detectActionIntent "hello" (Resolved reply_no_confidence)) "isAction" = VBool true.
Proof.
  split.
  - vm_compute; reflexivity.
  - apply (actionType_implies_isAction "hello" (Resolved reply_no_confidence)).
    vm_compute; reflexivity.
Defined.

(** C2: when the lower-cased utterance contains an information keyword of
    the stage's list, the heuristic override, entered with an intent whose
    [isAction] is false, leaves [isAction] false (it returns the intent
    untouched), and the parse-failure fallback gives [isAction] false;
    whether an action keyword occurs as well makes no difference. *)
Theorem information_keywords_take_precedence (userInput : string) (intent : object) :
  get intent "isAction" = VBool false ->
  (some_included Override.informationKeywords (toLowerCase userInput) = true ->
   heuristic_override userInput intent = intent
   /\ get (heuristic_override userInput intent) "isAction" = VBool false)
  /\ (some_included Fallback.informationKeywords (toLowerCase userInput) = true ->
      get (fallback_heuristic userInput) "isAction" = VBool false).
Proof.
  intros Hq. split; intros Hinfo.
  - rewrite (heuristic_override_of_information _ _ Hinfo). now split.
  - unfold fallback_heuristic. rewrite Hinfo.
    cbn [get String.eqb Ascii.eqb Bool.eqb negb andb].
    now rewrite andb_false_r.
Qed.

Lemma information_keywords_take_precedence_witness :
  some_included Override.actionKeywords (toLowerCase "Tell me where to click on and scroll") = true
  /\ some_included Fallback.actionKeywords (toLowerCase "Tell me where to click on and scroll") = true
  /\ get (heuristic_override "Tell me where to click on and scroll"
            [("isAction", VBool false); ("confidence", VNumber (Finite 1))]) "isAction"
     = VBool false
  /\ get (fallback_heuristic "Tell me where to click on and scroll") "isAction" = VBool false.
Proof.
  split; [vm_compute; reflexivity|].
  split; [vm_compute; reflexivity|].
  destruct (information_keywords_take_precedence
              "Tell me where to click on and scroll"
              [("isAction", VBool false); ("confidence", VNumber (Finite 1))]
              eq_refl) as [Hoverride Hfallback].
  split.
  - apply Hoverride. vm_compute; reflexivity.
  - apply Hfallback. vm_compute; reflexivity.
Defined.






(** C5: for every utterance and every reply from which no valid intent can
    be read (no object in it, a syntax error, an [isAction] that is not a
    boolean), the returned intent has [isAction] equal to "the lower-cased
    utterance contains an action keyword and no information keyword" (the
    fallback lists), confidence 0.3, and null [actionType],
    [targetDescription] and [additionalData]; for "scroll to the bottom"
    that is [isAction] true with confidence 0.3. *)
Theorem parse_failure_falls_back (userInput response : string) :
  parse_intent response = None ->
  (get (detectActionIntent userInput (Resolved response)) "isAction"
   = VBool (some_included Fallback.actionKeywords (toLowerCase userInput)
            && negb (some_included Fallback.informationKeywords (toLowerCase userInput)))
   /\ get (detectActionIntent userInput (Resolved response)) "confidence"
      = VNumber (Finite (3 # 10))
   /\ get (detectActionIntent userInput (Resolved response)) "actionType" = VNull
   /\ get (detectActionIntent userInput (Resolved response)) "targetDescription" = VNull
   /\ get (detectActionIntent userInput (Resolved response)) "additionalData" = VNull)
  /\ (get (detectActionIntent "scroll to the bottom" (Resolved response)) "isAction"
      = VBool true
      /\ get (detectActionIntent "scroll to the bottom" (Resolved response)) "confidence"
         = VNumber (Finite (3 # 10))).
Proof.
  intros Hparse. cbn [detectActionIntent]. rewrite Hparse.
  split; [repeat split|split; vm_compute; reflexivity].
Qed.

Lemma parse_failure_falls_back_witness :
  get (detectActionIntent "scroll to the bottom" (Resolved "Sorry, I cannot help.")) "isAction"
  = VBool true
  /\ get (detectActionIntent "scroll to the bottom" (Resolved "Sorry, I cannot help.")) "confidence"
     = VNumber (Finite (3 # 10)).
Proof.
  apply (parse_failure_falls_back "scroll to the bottom" "Sorry, I cannot help.").
  vm_compute; reflexivity.
Defined.

(** C6: for every utterance, when the model call throws or is rejected,
    [detectActionIntent] returns an intent with [isAction] false,
    confidence 0, null [actionType], [targetDescription] and
    [additionalData], and a reasoning that contains the error's message. *)
Theorem model_failure_is_question (userInput : string) (error : Error) :
  get (detectActionIntent userInput (Rejected error)) "isAction" = VBool false
  /\ get (detectActionIntent userInput (Rejected error)) "confidence" = VNumber (Finite 0)
  /\ get (detectActionIntent userInput (Rejected error)) "actionType" = VNull
  /\ get (detectActionIntent userInput (Rejected error)) "targetDescription" = VNull
  /\ get (detectActionIntent userInput (Rejected error)) "additionalData" = VNull
  /\ get (detectActionIntent userInput (Rejected error)) "reasoning"
     = VString ("Error: " ++ message error)
  /\ includes ("Error: " ++ message error) (message error) = true.
Proof.
  repeat split. apply includes_app_r.
Qed.

End ClassifierClaims.

(** ** The element catalog *)

Lemma string_app_assoc (a b c : string) : ((a ++ b) ++ c = a ++ b ++ c)%string.
Proof. induction a as [|x a IH]; simpl; [reflexivity|now rewrite IH]. Qed.

Lemma digit_is_not_space (c : ascii) : is_digit c = true -> is_space c = false.
Proof.
  unfold is_digit, is_space, in_range. intros H.
  apply andb_true_iff in H as [Hlo Hhi].
  apply Nat.leb_le in Hlo, Hhi.
  apply orb_false_iff; split.
  - apply andb_false_iff; right. apply Nat.leb_gt. lia.
  - apply Nat.eqb_neq. lia.
Qed.

Lemma digit_is_id_char (c : ascii) : is_digit c = true -> ElementDetector.id_char c = true.
Proof.
  intros H. unfold ElementDetector.id_char. rewrite H.
  now rewrite orb_true_r.
Qed.

Lemma uint_string_digits (d : Decimal.uint) :
  all_digits (NilEmpty.string_of_uint d) = true.
Proof. induction d; simpl; auto. Qed.

Lemma of_index_digits (n : nat) : all_digits (of_index n) = true.
Proof. apply uint_string_digits. Qed.

Lemma of_index_inj (i j : nat) : of_index i = of_index j -> i = j.
Proof.
  unfold of_index. intros H.
  apply Unsigned.to_uint_inj.
  assert (E : Some (Nat.to_uint i) = Some (Nat.to_uint j)).
  { rewrite <- (NilEmpty.usu (Nat.to_uint i)), <- (NilEmpty.usu (Nat.to_uint j)).
    now rewrite H. }
  now injection E.
Qed.

Lemma all_digits_underscore (x d : string) :
  all_digits (x ++ String "_" d) = false.
Proof.
  induction x as [|c x IH]; simpl; [reflexivity|].
  rewrite IH. apply andb_false_r.
Qed.

Lemma trailing_digits_of_digits (d : string) :
  all_digits d = true -> trailing_digits d = d.
Proof. destruct d as [|c d]; [reflexivity|]. intros H. cbn [trailing_digits]. now rewrite H. Qed.

(** The digits after the last underscore can be read back. *)
Lemma trailing_digits_app (x d : string) :
  all_digits d = true -> trailing_digits (x ++ String "_" d) = d.
Proof.
  intros Hd. induction x as [|c x IH].
  - cbn [append trailing_digits].
    change (all_digits (String "_" d)) with (all_digits (EmptyString ++ String "_" d)).
    rewrite all_digits_underscore. now apply trailing_digits_of_digits.
  - change (String c x ++ String "_" d)%string with (String c (x ++ String "_" d)).
    cbn [trailing_digits].
    change (String c (x ++ String "_" d)) with (String c x ++ String "_" d)%string.
    now rewrite all_digits_underscore.
Qed.

Section CatalogClaims.
Import ElementDetector Examples.

Lemma spaces_app (x y : string) (c : ascii) :
  is_space c = false -> spaces (x ++ String c y) = spaces x.
Proof.
  intros Hc. induction x as [|a x IH]; simpl.
  - now rewrite Hc.
  - now rewrite IH.
Qed.

Lemma space_run_cons (a : ascii) (r : string) :
  space_run (String a r) = if is_space a then Some (spaces r, "_"%string) else None.
Proof. unfold space_run. cbn [spaces]. now destruct (is_space a). Qed.

(** Replacing the runs of white space works piece by piece when the second
    piece starts with a character that is not white space. *)
Lemma replace_space_run_app (x y : string) (c : ascii) (k : nat) :
  is_space c = false -> (k <= spaces x)%nat ->
  replace_from space_run k (x ++ String c y)
  = (replace_from space_run k x ++ replace_from space_run 0 (String c y))%string.
Proof.
  intros Hc. revert k. induction x as [|a x IH]; intros k Hk.
  - cbn [spaces] in Hk. assert (k = 0%nat) as -> by lia. reflexivity.
  - change (String a x ++ String c y)%string with (String a (x ++ String c y)).
    cbn [replace_from]. destruct k as [|k].
    + rewrite !space_run_cons, (spaces_app x y c Hc), Hc.
      destruct (is_space a).
      * rewrite IH by lia. cbn [replace_from]. rewrite space_run_cons, Hc. reflexivity.
      * rewrite IH by lia. cbn [replace_from]. rewrite space_run_cons, Hc. reflexivity.
    + apply IH. cbn [spaces] in Hk. destruct (is_space a); lia.
Qed.

Lemma replace_space_run_digits (d : string) :
  all_digits d = true -> replace_from space_run 0 d = d.
Proof.
  induction d as [|c d IH]; [reflexivity|]. cbn [all_digits]. intros H.
  apply andb_true_iff in H as [Hc Hd].
  cbn [replace_from]. rewrite space_run_cons, (digit_is_not_space c Hc).
  now rewrite IH.
Qed.

Lemma keep_id_chars_app (x y : string) :
  keep_id_chars (x ++ y) = (keep_id_chars x ++ keep_id_chars y)%string.
Proof.
  induction x as [|c x IH]; [reflexivity|]. simpl.
  destruct (id_char c); simpl; now rewrite IH.
Qed.

Lemma keep_id_chars_digits (d : string) :
  all_digits d = true -> keep_id_chars d = d.
Proof.
  induction d as [|c d IH]; [reflexivity|]. cbn [all_digits]. intros H.
  apply andb_true_iff in H as [Hc Hd].
  cbn [keep_id_chars]. rewrite (digit_is_id_char c Hc). now rewrite IH.
Qed.

(** A unique id ends with an underscore and the index. *)
Lemma generateUniqueId_tail (e : Element) (type : string) (index : nat) :
  exists prefix : string,
    generateUniqueId e type index = (prefix ++ String "_" (of_index index))%string.
Proof.
  unfold generateUniqueId.
  set (id := reflected e "id"). set (className := reflected e "class").
  set (text := take 20 (getElementText e)).
  exists (keep_id_chars
            (replaceAll space_run (type ++ "_" ++ id ++ "_" ++ className ++ "_" ++ text))).
  replace (type ++ "_" ++ id ++ "_" ++ className ++ "_" ++ text ++ "_" ++ of_index index)%string
    with ((type ++ "_" ++ id ++ "_" ++ className ++ "_" ++ text)
            ++ String "_" (of_index index))%string
    by (now rewrite !string_app_assoc).
  unfold replaceAll.
  rewrite replace_space_run_app by (reflexivity || lia).
  rewrite keep_id_chars_app. f_equal.
  cbn [replace_from]. rewrite space_run_cons.
  change (is_space "_") with false. cbn iota.
  rewrite replace_space_run_digits by apply of_index_digits.
  cbn [keep_id_chars]. change (id_char "_") with true. cbn iota.
  now rewrite keep_id_chars_digits by apply of_index_digits.
Qed.

(** Two unique ids built with different indices differ. *)
Lemma generateUniqueId_index (e e' : Element) (type type' : string) (i j : nat) :
  generateUniqueId e type i = generateUniqueId e' type' j -> i = j.
Proof.
  destruct (generateUniqueId_tail e type i) as [p ->].
  destruct (generateUniqueId_tail e' type' j) as [p' ->].
  intros H. apply (f_equal trailing_digits) in H.
  rewrite !trailing_digits_app in H by apply of_index_digits.
  now apply of_index_inj.
Qed.

(** The unique ids built by two different passes never coincide: they
    start with the name of the pass. *)
Lemma uniqueId_of_search_and_input (e e' : Element) (i j : nat) :
  generateUniqueId e "search" i <> generateUniqueId e' "input" j.
Proof. unfold generateUniqueId. cbn. discriminate. Qed.

Lemma search_pass : pass_of "search" search_entry.
Proof.
  intros e i entry. unfold search_entry.
  destruct (negb (isVisible e)); [discriminate|].
  intros H; injection H as <-. now repeat split.
Qed.

Lemma button_pass : pass_of "button" button_entry.
Proof.
  intros e i entry. unfold button_entry.
  destruct (negb (isVisible e)); [discriminate|].
  intros H; injection H as <-. now repeat split.
Qed.

Lemma link_pass : pass_of "link" link_entry.
Proof.
  intros e i entry. unfold link_entry.
  destruct (negb (isVisible e)); [discriminate|].
  destruct (_ || _)%bool; [discriminate|].
  intros H; injection H as <-. now repeat split.
Qed.

Lemma input_pass : pass_of "input" input_entry.
Proof.
  intros e i entry. unfold input_entry.
  destruct (negb (isVisible e)); [discriminate|].
  intros H; injection H as <-. now repeat split.
Qed.

Section OnePass.
Variable kind : string.
Variable f : Element -> nat -> option Entry.
Hypothesis Hpass : pass_of kind f.

Lemma collect_In (elements : list Element) (k : nat) (entry : Entry) :
  In entry (collect f k elements) ->
  exists e i, In e elements /\ (k <= i)%nat /\ f e i = Some entry.
Proof.
  revert k. induction elements as [|e rest IH]; intros k; cbn [collect]; [easy|].
  destruct (f e k) as [entry0|] eqn:Hf.
  - intros [<-|Hin].
    + exists e, k. repeat split; [now left|lia|exact Hf].
    + destruct (IH _ Hin) as (e' & i & He' & Hi & Hfe).
      exists e', i. repeat split; [now right|lia|exact Hfe].
  - intros Hin. destruct (IH _ Hin) as (e' & i & He' & Hi & Hfe).
    exists e', i. repeat split; [now right|lia|exact Hfe].
Qed.

(** Within a pass the unique ids are pairwise different: the indices are. *)
Lemma collect_NoDup (elements : list Element) (k : nat) :
  NoDup (map uniqueId (collect f k elements)).
Proof.
  revert k. induction elements as [|e rest IH]; intros k; cbn [collect map]; [constructor|].
  destruct (f e k) as [entry|] eqn:Hf; [|apply IH].
  cbn [map]. constructor; [|apply IH].
  intros Hin. apply in_map_iff in Hin as (entry' & Hid & Hin).
  destruct (collect_In _ _ _ Hin) as (e' & i & _ & Hi & Hfe).
  destruct (Hpass _ _ _ Hf) as (_ & _ & Hu).
  destruct (Hpass _ _ _ Hfe) as (_ & _ & Hu').
  rewrite Hu, Hu' in Hid. apply generateUniqueId_index in Hid. lia.
Qed.

(** An element that the pass accepts has an entry in its result. *)
Lemma collect_hit (elements : list Element) (k : nat) (e : Element) :
  In e elements ->
  (forall i, exists entry, f e i = Some entry) ->
  (1 <= entries_for (node e) (collect f k elements))%nat.
Proof.
  intros Hin Hacc. revert k.
  induction elements as [|e0 rest IH]; intros k; [destruct Hin|].
  cbn [collect]. destruct Hin as [->|Hin].
  - destruct (Hacc k) as [entry Hf]. rewrite Hf.
    destruct (Hpass _ _ _ Hf) as (_ & Hnode & _).
    unfold entries_for. cbn [filter]. rewrite Hnode, Nat.eqb_refl. cbn [List.length]. lia.
  - specialize (IH Hin). destruct (f e0 k) as [entry0|].
    + specialize (IH (S k)). unfold entries_for in *. cbn [filter].
      destruct (element entry0 =? node e)%nat; cbn [List.length]; lia.
    + apply IH.
Qed.

End OnePass.

Lemma generateUniqueId_first (e : Element) (c : ascii) (kind : string) (i : nat) :
  is_space c = false -> id_char c = true ->
  first_char (generateUniqueId e (String c kind) i) = Some c.
Proof.
  intros Hs Hid. unfold generateUniqueId, replaceAll.
  cbn [append replace_from]. rewrite space_run_cons, Hs.
  cbn [keep_id_chars]. now rewrite Hid.
Qed.

(** The unique ids of a pass start with the first letter of its kind. *)
Lemma pass_first_char (c : ascii) (kind : string) (f : Element -> nat -> option Entry)
      (elements : list Element) (k : nat) (u : string) :
  pass_of (String c kind) f ->
  is_space c = false -> id_char c = true ->
  In u (map uniqueId (collect f k elements)) -> first_char u = Some c.
Proof.
  intros Hpass Hs Hid Hin. apply in_map_iff in Hin as (entry & <- & Hin).
  destruct (collect_In f elements k entry Hin) as (e & i & _ & _ & Hfe).
  destruct (Hpass _ _ _ Hfe) as (_ & _ & ->).
  now apply generateUniqueId_first.
Qed.

(** On a list whose unique ids are pairwise different and not yet seen,
    the filter removes nothing. *)
Lemma dedupe_of_NoDup (entries : list Entry) (seen : list string) :
  NoDup (map uniqueId entries) ->
  (forall u, In u seen -> ~ In u (map uniqueId entries)) ->
  dedupe seen entries = entries.
Proof.
  revert seen. induction entries as [|entry rest IH]; intros seen Hnd Hseen; [reflexivity|].
  cbn [dedupe map] in *. apply NoDup_cons_iff in Hnd as [Hnotin Hnd].
  destruct (existsb (String.eqb (uniqueId entry)) seen) eqn:Hex.
  - apply existsb_exists in Hex as (u & Hu & Heq).
    apply String.eqb_eq in Heq. subst u.
    exfalso. apply (Hseen _ Hu). now left.
  - f_equal. apply IH; [exact Hnd|].
    intros u [<-|Hu]; [exact Hnotin|].
    intros Hin. apply (Hseen _ Hu). now right.
Qed.

(** The de-duplication of [getAllInteractiveElements] never removes an
    entry: the catalog is the plain concatenation of the four passes. *)
Lemma dedupe_is_vacuous (document : list Element) :
  getAllInteractiveElements document
  = getAllSearchBars document ++ getAllButtons document
    ++ getAllLinks document ++ getAllInputs document.
Proof.
  unfold getAllInteractiveElements. apply dedupe_of_NoDup; [|intros u []].
  unfold getAllSearchBars, getAllButtons, getAllLinks, getAllInputs.
  rewrite !map_app.
  repeat apply NoDup_app;
    try (eapply collect_NoDup; first [apply search_pass|apply button_pass
                                     |apply link_pass|apply input_pass]).
  - intros u Hl Hi.
    apply (pass_first_char _ _ _ _ _ _ link_pass eq_refl eq_refl) in Hl.
    apply (pass_first_char _ _ _ _ _ _ input_pass eq_refl eq_refl) in Hi.
    congruence.
  - intros u Hb Hin.
    apply (pass_first_char _ _ _ _ _ _ button_pass eq_refl eq_refl) in Hb.
    apply in_app_or in Hin as [Hl|Hi].
    + apply (pass_first_char _ _ _ _ _ _ link_pass eq_refl eq_refl) in Hl. congruence.
    + apply (pass_first_char _ _ _ _ _ _ input_pass eq_refl eq_refl) in Hi. congruence.
  - intros u Hs Hin.
    apply (pass_first_char _ _ _ _ _ _ search_pass eq_refl eq_refl) in Hs.
    apply in_app_or in Hin as [Hb|Hin].
    + apply (pass_first_char _ _ _ _ _ _ button_pass eq_refl eq_refl) in Hb. congruence.
    + apply in_app_or in Hin as [Hl|Hi].
      * apply (pass_first_char _ _ _ _ _ _ link_pass eq_refl eq_refl) in Hl. congruence.
      * apply (pass_first_char _ _ _ _ _ _ input_pass eq_refl eq_refl) in Hi. congruence.
Qed.

Lemma entries_for_app (n : nat) (a b : list Entry) :
  entries_for n (a ++ b) = (entries_for n a + entries_for n b)%nat.
Proof. unfold entries_for. now rewrite filter_app, length_app. Qed.

(** On every page, a visible element that both the search pass and the
    input pass select is listed at least twice in the catalog. *)
Lemma found_twice_listed_twice (document : list Element) (e : Element) :
  In e document -> isVisible e = true ->
  search_selector e = true -> input_selector e = true ->
  (2 <= entries_for (node e) (getAllInteractiveElements document))%nat.
Proof.
  intros Hin Hvis Hsearch Hinput.
  rewrite dedupe_is_vacuous, !entries_for_app.
  assert (Hs : (1 <= entries_for (node e) (getAllSearchBars document))%nat).
  { apply (collect_hit "search" search_entry search_pass).
    - apply filter_In. now split.
    - intros i. unfold search_entry. rewrite Hvis. cbn [negb]. eexists; reflexivity. }
  assert (Hi : (1 <= entries_for (node e) (getAllInputs document))%nat).
  { apply (collect_hit "input" input_entry input_pass).
    - apply filter_In. now split.
    - intros i. unfold input_entry. rewrite Hvis. cbn [negb]. eexists; reflexivity. }
  lia.
Qed.

(** C7 (the code departs from the claim): on the page made of one visible
    search box, the search pass and the input pass both find node 7, the two
    entries get the unique ids "search_q_big_box__0" and
    "input_q_big_box__0", the filter keeps both, and the catalog holds two
    entries for the node. *)
Theorem search_box_is_listed_twice :
  search_selector search_box = true
  /\ input_selector search_box = true
  /\ map (fun entry => (type entry, element entry, uniqueId entry))
         (getAllInteractiveElements [search_box])
     = [("search", 7%nat, "search_q_big_box__0"); ("input", 7%nat, "input_q_big_box__0")]
  /\ entries_for 7 (getAllInteractiveElements [search_box]) = 2%nat.
Proof. repeat split; vm_compute; reflexivity. Qed.

End CatalogClaims.

(** ** The local match score *)

Section ScoreClaims.
Import ElementDetector Examples.

Local Open Scope Q_scope.

(** One bonus step of the score: if the step applies to the shorter
    description it applies to the longer one. *)
Lemma bonus_mono (c c' : bool) (q x y : Q) :
  (c = true -> c' = true) -> 0 <= q -> x <= y ->
  (if c then x + q else x) <= (if c' then y + q else y).
Proof.
  intros Himp Hq Hxy. destruct c.
  - rewrite (Himp eq_refl). lra.
  - destruct c'; lra.
Qed.

Lemma guarded_includes_app (g : bool) (description suffix k : string) :
  (g && includes description k)%bool = true ->
  (g && includes (description ++ suffix) k)%bool = true.
Proof.
  intros H. apply andb_true_iff in H as [Hg Hi].
  now rewrite Hg, (includes_app_l _ _ suffix Hi).
Qed.

(** The partial word match adds its tenths on top of the running score. *)
Lemma word_matches_shift (t : string) (words : list string) (score : Q) :
  word_matches t words score == score + word_matches t words 0.
Proof.
  revert score. induction words as [|word words IH]; intros score; cbn [word_matches].
  - lra.
  - destruct (includes t word && (2 <? String.length word)%nat)%bool.
    + rewrite (IH (score + (1 # 10))), (IH (0 + (1 # 10))). lra.
    + apply IH.
Qed.

Lemma text_step_shift (e : Entry) (description : string) (score : Q) :
  text_step e description score == score + text_step e description 0.
Proof.
  unfold text_step.
  destruct (nonempty (elementText e) && includes description (elementText e))%bool.
  - lra.
  - destruct (nonempty (elementText e)).
    + apply word_matches_shift.
    + lra.
Qed.

(** Once the description contains the element's text, the text step is
    the exact match: 0.5, or nothing for an element without text. *)
Lemma text_step_of_exact (e : Entry) (description : string) (score : Q) :
  includes description (elementText e) = true ->
  text_step e description score
  = if nonempty (elementText e) then score + (5 # 10) else score.
Proof.
  intros H. unfold text_step. rewrite H.
  now destruct (nonempty (elementText e)).
Qed.

Lemma text_step_of_no_text (e : Entry) (description : string) (score : Q) :
  nonempty (elementText e) = false -> text_step e description score = score.
Proof. intros H. unfold text_step. now rewrite H. Qed.

(** A longer description that contains the element's text scores at least
    as much, when the text step of the shorter one counts for at most 0.5. *)
Lemma longer_description_keeps_score (e : Entry) (description suffix : string) :
  includes (description ++ suffix) (elementText e) = true ->
  text_step e description 0 <= 5 # 10 ->
  calculateMatchScore e description <= calculateMatchScore e (description ++ suffix).
Proof.
  intros Hexact Htext. unfold calculateMatchScore.
  apply Q.min_le_compat_r.
  apply bonus_mono; [apply guarded_includes_app|lra|].
  apply bonus_mono; [apply guarded_includes_app|lra|].
  apply bonus_mono; [apply guarded_includes_app|lra|].
  assert (Htype :
    (if includes description (type e) then 0 + (3 # 10) else 0)
    <= (if includes (description ++ suffix) (type e) then 0 + (3 # 10) else 0)).
  { apply bonus_mono; [apply includes_app_l|lra|lra]. }
  rewrite (text_step_of_exact e (description ++ suffix) _ Hexact).
  destruct (nonempty (elementText e)) eqn:Hne.
  - rewrite text_step_shift. lra.
  - rewrite (text_step_of_no_text _ _ _ Hne). exact Htype.
Qed.

(** C8, as stated, fails: for the button "login" and the description
    "log log log log log log", six words match partially and the score is
    0.6; with the display text appended the exact match replaces them and
    the score is 0.5. *)
Lemma appended_text_counterexample :
  elementText login_button = "login"%string
  /\ calculateMatchScore login_button "log log log log log log" == 6 # 10
  /\ calculateMatchScore login_button "log log log log log log login" == 5 # 10
  /\ calculateMatchScore login_button
       ("log log log log log log" ++ " " ++ elementText login_button)
     < calculateMatchScore login_button "log log log log log log".
Proof. repeat split; vm_compute; reflexivity. Qed.

(** C8, amended: appending the element's display text (as the score
    compares it: lower case), after any separator, does not decrease the
    element's score, provided the text step of the original description
    counts for at most 0.5, that is, the description contains the display
    text already or at most five of its words match partially. *)
Theorem appended_text_keeps_score (e : Entry) (description separator : string) :
  text_step e description 0 <= 5 # 10 ->
  calculateMatchScore e description
  <= calculateMatchScore e (description ++ separator ++ elementText e).
Proof.
  intros Htext.
  apply longer_description_keeps_score.
  - apply includes_app_mid.
  - exact Htext.
Qed.

(** The same for a description that is lower-cased as a whole before it is
    scored, which is what [findElementByDescription] does: the display text
    is then appended as the page shows it. *)
Lemma appended_display_text_keeps_score (e : Entry) (description separator : string) :
  text_step e (toLowerCase description) 0 <= 5 # 10 ->
  calculateMatchScore e (toLowerCase description)
  <= calculateMatchScore e (toLowerCase (description ++ separator ++ displayText e)).
Proof.
  intros Htext. rewrite !toLowerCase_app.
  apply longer_description_keeps_score.
  - apply includes_app_mid.
  - exact Htext.
Qed.

Lemma appended_text_keeps_score_witness :
  calculateMatchScore search_entry_of_box "search bar" == 8 # 10
  /\ calculateMatchScore search_entry_of_box "search bar"
     <= calculateMatchScore search_entry_of_box
          ("search bar" ++ " " ++ elementText search_entry_of_box).
Proof.
  split.
  - vm_compute; reflexivity.
  - apply (appended_text_keeps_score search_entry_of_box "search bar" " ").
    vm_compute. discriminate.
Defined.

End ScoreClaims.

(** ** The action executor *)

Section ExecutorClaims.
Import ActionExecutor Examples.

(** C9: for every action type and every target element that is an input of
    type "file", wherever it is, [validateAction] answers [safe: false],
    and never asks for a confirmation. *)
Theorem file_inputs_are_never_safe (actionType : string) (e : HTMLElement) :
  toLowerCase (tagName e) = "input"%string ->
  option_map toLowerCase (type e) = Some "file"%string ->
  safe (validateAction actionType (Some e)) = false
  /\ needsConfirmation (validateAction actionType (Some e)) = false.
Proof.
  intros Htag Htype. unfold validateAction.
  destruct (negb (existsb (String.eqb actionType) safeActions)); [now split|].
  destruct (negb (inDocument e)); [now split|].
  rewrite Htag, Htype. now split.
Qed.

Lemma file_inputs_are_never_safe_witness :
  existsb (String.eqb "click") safeActions = true
  /\ inDocument file_input = true
  /\ safe (validateAction "click" (Some file_input)) = false
  /\ needsConfirmation (validateAction "click" (Some file_input)) = false.
Proof.
  split; [reflexivity|]. split; [reflexivity|].
  apply (file_inputs_are_never_safe "click" file_input); reflexivity.
Defined.


Lemma dom_write_other (w : World) (r r' : ref) (e : HTMLElement) :
  r' <> r -> dom (write w r e) r' = dom w r'.
Proof. intros H. cbn. apply Nat.eqb_neq in H. now rewrite H. Qed.





End ExecutorClaims.

(* ================================================================== *)
(** * Part III. Further properties of the code                          *)
(* ================================================================== *)

(** ** Substrings *)

Lemma startsWith_iff (s k : string) :
  startsWith s k = true <-> exists b, s = (k ++ b)%string.
Proof.
  revert s. induction k as [|c k IH]; intros s.
  - split; [intros _; now exists s|intros _; now destruct s].
  - destruct s as [|a s]; cbn [startsWith].
    + split; [discriminate|intros [b Hb]; discriminate].
    + rewrite andb_true_iff, Ascii.eqb_eq, IH. split.
      * intros [-> [b ->]]. now exists b.
      * intros [b Hb]. injection Hb as -> ->. split; [reflexivity|now exists b].
Qed.

(** [includes] is the substring relation. *)
Lemma includes_iff (s k : string) :
  includes s k = true <-> exists a b, s = (a ++ k ++ b)%string.
Proof.
  induction s as [|c s IH]; cbn [includes].
  - rewrite orb_false_r, startsWith_iff. split.
    + intros [b Hb]. now exists EmptyString, b.
    + intros [[|x a] [b Hb]]; [now exists b|discriminate].
  - rewrite orb_true_iff, startsWith_iff, IH. split.
    + intros [[b Hb]|[a [b Hb]]].
      * now exists EmptyString, b.
      * exists (String c a), b. now rewrite Hb.
    + intros [[|x a] [b Hb]].
      * left. now exists b.
      * right. injection Hb as -> ->. now exists a, b.
Qed.

Lemma includes_trans (s k k' : string) :
  includes s k = true -> includes k k' = true -> includes s k' = true.
Proof.
  rewrite !includes_iff. intros [a [b ->]] [a' [b' ->]].
  exists (a ++ a')%string, (b' ++ b)%string.
  now rewrite !string_app_assoc.
Qed.

Lemma includes_one_cons (c a : ascii) (r : string) :
  includes (String a r) (String c EmptyString)
  = (Ascii.eqb c a || includes r (String c EmptyString))%bool.
Proof. cbn [includes startsWith]. now destruct r; rewrite andb_true_r. Qed.

(** ** The classifier, stage by stage *)

Section ClassifierStages.
Import IntentClassifier ElementMatcher Examples Scenarios.

Lemma consistency_repair_isAction (intent : object) (b : bool) :
  get intent "isAction" = VBool b ->
  get (consistency_repair intent) "isAction"
  = VBool (b || truthy (get intent "actionType")).
Proof.
  intros Hb. destruct b, (truthy (get intent "actionType")) eqn:Ht; cbn [orb].
  - rewrite consistency_repair_idle by (rewrite Ht, Hb; reflexivity). exact Hb.
  - rewrite consistency_repair_idle by (rewrite Ht; reflexivity). exact Hb.
  - apply consistency_repair_fires; [exact Ht|rewrite Hb; reflexivity].
  - rewrite consistency_repair_idle by (rewrite Ht; reflexivity). exact Hb.
Qed.

(** X1: whatever the utterance and whatever the model call did, the
    [isAction] of the returned intent is a boolean. *)
Theorem returned_isAction_is_boolean (userInput : string) (outcome : prompt_outcome) :
  is_boolean (get (detectActionIntent userInput outcome) "isAction") = true.
Proof.
  destruct outcome as [error|response]; cbn [detectActionIntent]; [reflexivity|].
  destruct (parse_intent response) as [intent|] eqn:Hparse; [|reflexivity].
  destruct (parse_intent_boolean _ _ Hparse) as [b Hb].
  rewrite (heuristic_override_isAction _ _ _ (consistency_repair_isAction _ _ Hb)).
  reflexivity.
Qed.



(** X3: a valid reply is returned exactly as it was parsed when it says
    [isAction] true, and when it says false, names no truthy [actionType],
    and the utterance has an information keyword or no action keyword. *)
Theorem valid_reply_returned_as_parsed
        (userInput response : string) (intent : object) :
  parse_intent response = Some intent ->
  get intent "isAction" = VBool true
  \/ (truthy (get intent "actionType") = false
      /\ (some_included Override.informationKeywords (toLowerCase userInput) = true
          \/ some_included Override.actionKeywords (toLowerCase userInput) = false)) ->
  detectActionIntent userInput (Resolved response) = intent.
Proof.
  intros Hparse Hcase. cbn [detectActionIntent]. rewrite Hparse.
  destruct Hcase as [Hb|[Ht Hkw]].
  - rewrite consistency_repair_idle by (rewrite Hb; cbn; apply andb_false_r).
    apply heuristic_override_of_action. now rewrite Hb.
  - rewrite consistency_repair_idle by (rewrite Ht; reflexivity).
    destruct Hkw as [Hinfo|Hact].
    + now apply heuristic_override_of_information.
    + unfold heuristic_override. rewrite Hact.
      destruct (negb (truthy (get intent "isAction"))); [|reflexivity].
      now destruct (some_included Override.informationKeywords (toLowerCase userInput)).
Qed.

Lemma valid_reply_returned_as_parsed_witness :
  detectActionIntent "Type Krishna in Go to file" (Resolved reply_type) = parsed_type
  /\ get parsed_type "actionType" = VString "type"
  /\ get parsed_type "targetDescription" = VString "Go to file"
  /\ get parsed_type "additionalData" = VString "Krishna".
Proof.
  split; [|repeat split].
  apply (valid_reply_returned_as_parsed "Type Krishna in Go to file" reply_type parsed_type).
  - reflexivity.
  - left. reflexivity.
Defined.





End ClassifierStages.

(** ** Replies without an object, and the two keyword tables *)

Section ClassifierTables.
Import IntentClassifier ElementMatcher Examples Scenarios.

Lemma includes_one_app (c : ascii) (a b : string) :
  includes (a ++ b) (String c EmptyString)
  = (includes a (String c EmptyString) || includes b (String c EmptyString))%bool.
Proof.
  induction a as [|x a IH].
  - reflexivity.
  - change (String x a ++ b)%string with (String x (a ++ b)).
    rewrite !includes_one_cons, IH. apply orb_assoc.
Qed.

Lemma trimStart_keeps_absent (c : ascii) (s : string) :
  includes s (String c EmptyString) = false ->
  includes (trimStart s) (String c EmptyString) = false.
Proof.
  induction s as [|a s IH]; [reflexivity|]. intros H. cbn [trimStart].
  destruct (is_space a); [|exact H].
  rewrite includes_one_cons in H. apply orb_false_iff in H as [_ H]. auto.
Qed.

Lemma trimEnd_keeps_absent (c : ascii) (s : string) :
  includes s (String c EmptyString) = false ->
  includes (trimEnd s) (String c EmptyString) = false.
Proof.
  induction s as [|a s IH]; [reflexivity|]. intros H. cbn [trimEnd].
  destruct (all_space (String a s)); [reflexivity|].
  rewrite includes_one_cons in *. apply orb_false_iff in H as [Ha H].
  now rewrite Ha, IH.
Qed.

(** A replacement that only deletes cannot bring in a character. *)
Lemma deletion_keeps_absent (m : string -> option (nat * string)) (c : ascii) :
  (forall s n out, m s = Some (n, out) -> out = EmptyString) ->
  forall (s : string) (k : nat),
    includes s (String c EmptyString) = false ->
    includes (replace_from m k s) (String c EmptyString) = false.
Proof.
  intros Hm. induction s as [|a s IH]; intros k H; [reflexivity|].
  rewrite includes_one_cons in H. apply orb_false_iff in H as [Ha H].
  cbn [replace_from]. destruct k as [|k]; [|now apply IH].
  destruct (m (String a s)) as [[n out]|] eqn:E.
  - rewrite (Hm _ _ _ E). now apply IH.
  - now rewrite includes_one_cons, Ha, IH.
Qed.

Lemma json_fence_deletes (s : string) (n : nat) (out : string) :
  json_fence s = Some (n, out) -> out = EmptyString.
Proof. unfold json_fence. destruct (startsWith s _); congruence. Qed.

Lemma closing_fence_deletes (s : string) (n : nat) (out : string) :
  closing_fence s = Some (n, out) -> out = EmptyString.
Proof. unfold closing_fence. destruct (_ && _)%bool; congruence. Qed.

Lemma from_first_brace_absent (s : string) :
  includes s "{" = false -> from_first_brace s = None.
Proof.
  induction s as [|a s IH]; [reflexivity|]. intros H.
  rewrite includes_one_cons in H. apply orb_false_iff in H as [Ha H].
  cbn [from_first_brace]. rewrite Ascii.eqb_sym, Ha. auto.
Qed.

Lemma jsonMatch_without_brace (response : string) :
  includes response "{" = false ->
  jsonMatch (replaceAll closing_fence (replaceAll json_fence (trim response))) = None.
Proof.
  intros H. unfold jsonMatch. rewrite from_first_brace_absent; [reflexivity|].
  unfold replaceAll, trim.
  apply (deletion_keeps_absent _ _ closing_fence_deletes).
  apply (deletion_keeps_absent _ _ json_fence_deletes).
  now apply trimEnd_keeps_absent, trimStart_keeps_absent.
Qed.

(** X6: a reply in which no opening brace occurs is never read as an
    object: [detectActionIntent] answers with the fallback heuristic, and
    [findBestElementMatch] with the no-match result "Failed to parse AI
    response". *)
Theorem reply_without_brace_is_a_parse_failure (userInput response : string) :
  includes response "{" = false ->
  detectActionIntent userInput (Resolved response) = fallback_heuristic userInput
  /\ findBestElementMatch (Resolved response) = no_match "Failed to parse AI response".
Proof.
  intros H. split.
  - cbn [detectActionIntent]. unfold parse_intent.
    now rewrite (jsonMatch_without_brace _ H).
  - cbn [findBestElementMatch]. unfold parse_match.
    now rewrite (jsonMatch_without_brace _ H).
Qed.

Lemma reply_without_brace_is_a_parse_failure_witness :
  detectActionIntent "scroll down" (Resolved "Sure, I will scroll the page for you.")
  = fallback_heuristic "scroll down"
  /\ findBestElementMatch (Resolved "Sure, I will scroll the page for you.")
     = no_match "Failed to parse AI response".
Proof.
  apply (reply_without_brace_is_a_parse_failure
           "scroll down" "Sure, I will scroll the page for you.").
  reflexivity.
Defined.

Ltac keyword_listed :=
  unfold Fallback.informationKeywords, Override.actionKeywords;
  cbn [In]; repeat first [left; reflexivity | right].

(** Finds, in the list of the goal, the keyword of the hypothesis or a
    keyword that it contains. *)
Ltac same_or_shorter_keyword :=
  match goal with
  | H : includes ?l ?kw = true |- existsb (includes ?l) _ = true =>
      apply existsb_exists;
      first [ exists kw; split; [solve [keyword_listed]|exact H]
            | exists "about"%string; split;
              [solve [keyword_listed]|apply (includes_trans _ _ _ H); reflexivity]
            | exists "type"%string; split;
              [solve [keyword_listed]|apply (includes_trans _ _ _ H); reflexivity] ]
  end.

(** An utterance with an information keyword of the override stage has
    one of the fallback stage. *)
Lemma override_information_in_fallback (lowerInput : string) :
  some_included Override.informationKeywords lowerInput = true ->
  some_included Fallback.informationKeywords lowerInput = true.
Proof.
  unfold some_included. intros H.
  apply existsb_exists in H as (kw & Hin & Hinc).
  cbn [In Override.informationKeywords] in Hin.
  repeat (destruct Hin as [<-|Hin]; [same_or_shorter_keyword|]).
  destruct Hin.
Qed.

(** An utterance with an action keyword of the fallback stage has one of
    the override stage, unless the keyword is "navigate", "refresh" or
    "reload". *)
Lemma fallback_action_in_override (lowerInput : string) :
  some_included Fallback.actionKeywords lowerInput = true ->
  includes lowerInput "navigate" = false ->
  includes lowerInput "refresh" = false ->
  includes lowerInput "reload" = false ->
  some_included Override.actionKeywords lowerInput = true.
Proof.
  unfold some_included. intros H Hnavigate Hrefresh Hreload.
  apply existsb_exists in H as (kw & Hin & Hinc).
  cbn [In Fallback.actionKeywords] in Hin.
  repeat (destruct Hin as [<-|Hin]; [first [congruence|same_or_shorter_keyword]|]).
  destruct Hin.
Qed.

(** X7: the two keyword tables agree in one direction. When the fallback
    heuristic classifies an utterance as an action, and the lower-cased
    utterance contains none of "navigate", "refresh" and "reload", the
    override stage turns every question-classified intent into an
    action for the same utterance. *)
Theorem fallback_action_is_override_action (userInput : string) (intent : object) :
  get (fallback_heuristic userInput) "isAction" = VBool true ->
  includes (toLowerCase userInput) "navigate" = false ->
  includes (toLowerCase userInput) "refresh" = false ->
  includes (toLowerCase userInput) "reload" = false ->
  get intent "isAction" = VBool false ->
  get (heuristic_override userInput intent) "isAction" = VBool true.
Proof.
  intros Hfallback Hnavigate Hrefresh Hreload Hq.
  change (VBool (some_included Fallback.actionKeywords (toLowerCase userInput)
                 && negb (some_included Fallback.informationKeywords (toLowerCase userInput)))
          = VBool true) in Hfallback.
  destruct (some_included Fallback.actionKeywords (toLowerCase userInput)) eqn:Hact;
    [|discriminate Hfallback].
  destruct (some_included Fallback.informationKeywords (toLowerCase userInput)) eqn:Hinfo;
    [discriminate Hfallback|].
  rewrite (heuristic_override_isAction _ _ false Hq).
  rewrite (fallback_action_in_override _ Hact Hnavigate Hrefresh Hreload).
  destruct (some_included Override.informationKeywords (toLowerCase userInput)) eqn:E;
    [|reflexivity].
  apply override_information_in_fallback in E. congruence.
Qed.

Lemma fallback_action_is_override_action_witness :
  get (heuristic_override "Type into the search box"
         [("isAction", VBool false)]) "isAction" = VBool true.
Proof.
  apply (fallback_action_is_override_action "Type into the search box"
           [("isAction", VBool false)]); reflexivity.
Defined.

(** X8: [findBestElementMatch] either fails with [matchIndex] -1 and
    confidence 0, or succeeds with a [matchIndex] and a confidence that
    are numbers and a truthy reasoning; a failure of the model call
    carries the error's message. *)
Theorem findBestElementMatch_result (outcome : prompt_outcome) :
  (get (findBestElementMatch outcome) "success" = VBool false
   /\ get (findBestElementMatch outcome) "matchIndex" = VNumber (Finite (-1))
   /\ get (findBestElementMatch outcome) "confidence" = VNumber (Finite 0))
  \/ (get (findBestElementMatch outcome) "success" = VBool true
      /\ is_number (get (findBestElementMatch outcome) "matchIndex") = true
      /\ is_number (get (findBestElementMatch outcome) "confidence") = true
      /\ truthy (get (findBestElementMatch outcome) "reasoning") = true).
Proof.
  destruct outcome as [error|response]; cbn [findBestElementMatch].
  - left. repeat split.
  - destruct (parse_match response) as [result|] eqn:Hparse.
    + right. unfold parse_match in Hparse.
      destruct (jsonMatch _) as [jsonStr|]; [|discriminate].
      destruct (Json.parse jsonStr) as [[| | | | | |o]|]; try discriminate.
      destruct (is_number (get o "matchIndex") && is_number (get o "confidence"))%bool
        eqn:Hnum; [|discriminate].
      injection Hparse as <-. apply andb_true_iff in Hnum as [Hi Hc].
      cbn. repeat split; try assumption.
      now destruct (truthy (get o "reasoning")) eqn:Hr.
    + left. repeat split.
Qed.

End ClassifierTables.

(** ** The catalog scan *)

Section CatalogScan.
Import ElementDetector Examples.

Lemma pass_types (kind : string) (f : Element -> nat -> option Entry)
      (elements : list Element) (k : nat) :
  pass_of kind f -> Forall (fun entry => type entry = kind) (collect f k elements).
Proof.
  intros Hpass. apply Forall_forall. intros entry Hin.
  destruct (collect_In f elements k entry Hin) as (e & i & _ & _ & Hf).
  now destruct (Hpass _ _ _ Hf).
Qed.

(** X9: the catalog is the concatenation of the four passes, search bars
    first, then buttons, links and inputs, each pass with entries of its
    own type only; the filter that follows removes none of them. *)
Theorem catalog_is_the_four_passes (document : list Element) :
  getAllInteractiveElements document
  = getAllSearchBars document ++ getAllButtons document
    ++ getAllLinks document ++ getAllInputs document
  /\ Forall (fun entry => type entry = "search"%string) (getAllSearchBars document)
  /\ Forall (fun entry => type entry = "button"%string) (getAllButtons document)
  /\ Forall (fun entry => type entry = "link"%string) (getAllLinks document)
  /\ Forall (fun entry => type entry = "input"%string) (getAllInputs document).
Proof.
  split; [apply dedupe_is_vacuous|].
  repeat split; apply pass_types;
    first [apply search_pass|apply button_pass|apply link_pass|apply input_pass].
Qed.

Lemma catalog_is_the_four_passes_types (document : list Element) :
  Forall (fun entry => type entry = "search"%string) (getAllSearchBars document)
  /\ Forall (fun entry => type entry = "button"%string) (getAllButtons document)
  /\ Forall (fun entry => type entry = "input"%string) (getAllInputs document).
Proof.
  repeat split; apply pass_types;
    first [apply search_pass|apply button_pass|apply input_pass].
Qed.

(** Where an entry of the catalog comes from. *)
Lemma catalog_entry_origin (document : list Element) (entry : Entry) :
  In entry (getAllInteractiveElements document) ->
  exists e i,
    In e document
    /\ (search_entry e i = Some entry \/ button_entry e i = Some entry
        \/ link_entry e i = Some entry \/ input_entry e i = Some entry).
Proof.
  rewrite dedupe_is_vacuous. intros Hin.
  unfold getAllSearchBars, getAllButtons, getAllLinks, getAllInputs, querySelectorAll in Hin.
  repeat (apply in_app_or in Hin as [Hin|Hin]);
    destruct (collect_In _ _ _ _ Hin) as (e & i & He & _ & Hf);
    apply filter_In in He as [He _]; exists e, i; (split; [exact He|]); tauto.
Qed.

Lemma isVisible_true (e : Element) :
  isVisible e = true ->
  String.eqb (display e) "none" = false
  /\ String.eqb (visibility e) "hidden" = false
  /\ String.eqb (opacity e) "0" = false
  /\ ~ width (rect e) == 0 /\ ~ height (rect e) == 0.
Proof.
  unfold isVisible.
  destruct (String.eqb (display e) "none"); [discriminate|].
  destruct (String.eqb (visibility e) "hidden"); [discriminate|].
  destruct (String.eqb (opacity e) "0"); [discriminate|]. cbn [orb].
  destruct (Qeq_bool (width (rect e)) 0) eqn:Hw; [discriminate|].
  destruct (Qeq_bool (height (rect e)) 0) eqn:Hh; [discriminate|].
  intros _. repeat split; try reflexivity.
  - intros H. apply Qeq_bool_iff in H. congruence.
  - intros H. apply Qeq_bool_iff in H. congruence.
Qed.

(** X10: every entry of the catalog refers to an element of the page that
    was visible at the scan: not [display: none], not [visibility:
    hidden], not opacity 0, and neither its width nor its height is 0. *)
Theorem catalog_entries_are_visible (document : list Element) (entry : Entry) :
  In entry (getAllInteractiveElements document) ->
  exists e,
    In e document /\ element entry = node e /\ isVisible e = true
    /\ String.eqb (display e) "none" = false
    /\ String.eqb (visibility e) "hidden" = false
    /\ String.eqb (opacity e) "0" = false
    /\ ~ width (rect e) == 0 /\ ~ height (rect e) == 0.
Proof.
  intros Hin. destruct (catalog_entry_origin _ _ Hin) as (e & i & He & Hf).
  exists e. split; [exact He|].
  assert (Hvis : isVisible e = true /\ element entry = node e).
  { destruct Hf as [Hf|[Hf|[Hf|Hf]]].
    - destruct (search_pass _ _ _ Hf) as (_ & Hn & _). split; [|exact Hn].
      unfold search_entry in Hf. now destruct (isVisible e).
    - destruct (button_pass _ _ _ Hf) as (_ & Hn & _). split; [|exact Hn].
      unfold button_entry in Hf. now destruct (isVisible e).
    - destruct (link_pass _ _ _ Hf) as (_ & Hn & _). split; [|exact Hn].
      unfold link_entry in Hf. now destruct (isVisible e).
    - destruct (input_pass _ _ _ Hf) as (_ & Hn & _). split; [|exact Hn].
      unfold input_entry in Hf. now destruct (isVisible e). }
  destruct Hvis as [Hvis Hn]. split; [exact Hn|]. split; [exact Hvis|].
  now apply isVisible_true.
Qed.

Lemma catalog_entries_are_visible_witness :
  exists e,
    In e [search_box] /\ ElementDetector.element search_entry_of_box = node e
    /\ isVisible e = true
    /\ String.eqb (display e) "none" = false
    /\ String.eqb (visibility e) "hidden" = false
    /\ String.eqb (opacity e) "0" = false
    /\ ~ width (rect e) == 0 /\ ~ height (rect e) == 0.
Proof.
  apply (catalog_entries_are_visible [search_box] search_entry_of_box).
  vm_compute. left. reflexivity.
Defined.

(** X11: a link entry of the catalog refers to an anchor with an [href]
    that is at least 10 wide and 10 high. *)
Theorem catalog_links_are_large_enough (document : list Element) (entry : Entry) :
  In entry (getAllInteractiveElements document) ->
  type entry = "link"%string ->
  exists e,
    In e document /\ element entry = node e
    /\ tagName e = "a"%string /\ has_attr e "href" = true
    /\ 10 <= width (rect e) /\ 10 <= height (rect e).
Proof.
  rewrite dedupe_is_vacuous. intros Hin Htype.
  assert (Hlink : In entry (getAllLinks document)).
  { destruct (catalog_is_the_four_passes_types document) as (Hs & Hb & Hi).
    repeat (apply in_app_or in Hin as [Hin|Hin]); try exact Hin.
    - rewrite Forall_forall in Hs. specialize (Hs _ Hin). congruence.
    - rewrite Forall_forall in Hb. specialize (Hb _ Hin). congruence.
    - rewrite Forall_forall in Hi. specialize (Hi _ Hin). congruence. }
  unfold getAllLinks, querySelectorAll in Hlink.
  destruct (collect_In _ _ _ _ Hlink) as (e & i & He & _ & Hf).
  apply filter_In in He as [He Hsel].
  destruct (link_pass _ _ _ Hf) as (_ & Hn & _).
  exists e. split; [exact He|]. split; [exact Hn|].
  unfold link_selector, is_tag in Hsel. apply andb_true_iff in Hsel as [Htag Hhref].
  apply String.eqb_eq in Htag. split; [exact Htag|]. split; [exact Hhref|].
  unfold link_entry in Hf. destruct (negb (isVisible e)); [discriminate|].
  destruct (Qle_bool 10 (width (rect e))) eqn:Hw; [|discriminate].
  destruct (Qle_bool 10 (height (rect e))) eqn:Hh; [|discriminate].
  split; now apply Qle_bool_iff.
Qed.

Lemma catalog_links_are_large_enough_witness :
  exists e,
    In e [search_box; Scenarios.docs_link]
    /\ ElementDetector.element Scenarios.docs_entry = node e
    /\ tagName e = "a"%string /\ has_attr e "href" = true
    /\ 10 <= width (rect e) /\ 10 <= height (rect e).
Proof.
  apply (catalog_links_are_large_enough [search_box; Scenarios.docs_link] Scenarios.docs_entry).
  - vm_compute. right. left. reflexivity.
  - reflexivity.
Defined.

End CatalogScan.

(** ** Unique ids *)

Section UniqueIds.
Import ElementDetector Examples.

Lemma keep_id_chars_only (s : string) : all_id_chars (keep_id_chars s) = true.
Proof.
  induction s as [|c s IH]; [reflexivity|]. cbn [keep_id_chars].
  destruct (id_char c) eqn:Hc; [|exact IH].
  cbn [all_id_chars]. now rewrite Hc, IH.
Qed.

(** The filter leaves ids that are pairwise different and were not seen. *)
Lemma dedupe_NoDup (entries : list Entry) (seen : list string) :
  NoDup (map uniqueId (dedupe seen entries))
  /\ forall u, In u (map uniqueId (dedupe seen entries)) -> ~ In u seen.
Proof.
  revert seen. induction entries as [|entry rest IH]; intros seen; cbn [dedupe].
  - split; [constructor|intros u []].
  - destruct (existsb (String.eqb (uniqueId entry)) seen) eqn:Hex; [apply IH|].
    destruct (IH (uniqueId entry :: seen)) as [Hnd Hnot].
    cbn [map]. split.
    + constructor; [|exact Hnd]. intros Hin. apply (Hnot _ Hin). now left.
    + intros u [<-|Hin].
      * intros Hseen.
        assert (existsb (String.eqb (uniqueId entry)) seen = true); [|congruence].
        apply existsb_exists. exists (uniqueId entry). split; [exact Hseen|].
        apply String.eqb_refl.
      * intros Hseen. apply (Hnot _ Hin). now right.
Qed.

(** X12: a unique id is made of letters, digits and underscores only; two
    unique ids built with different indices differ, whatever the elements
    and the kinds; and no two entries of a catalog have the same unique
    id. *)
Theorem unique_ids_are_unique :
  (forall (e : Element) (kind : string) (i : nat),
      all_id_chars (generateUniqueId e kind i) = true)
  /\ (forall (e e' : Element) (kind kind' : string) (i j : nat),
         i <> j -> generateUniqueId e kind i <> generateUniqueId e' kind' j)
  /\ (forall document : list Element,
         NoDup (map uniqueId (getAllInteractiveElements document))).
Proof.
  repeat split.
  - intros e kind i. apply keep_id_chars_only.
  - intros e e' kind kind' i j Hne Heq. apply Hne.
    exact (generateUniqueId_index _ _ _ _ _ _ Heq).
  - intros document. apply dedupe_NoDup.
Qed.

End UniqueIds.

(** ** Scores and the local resolver *)

Section Resolver.
Import ElementDetector Examples.

Local Open Scope Q_scope.

Lemma word_matches_ge (t : string) (words : list string) (score : Q) :
  score <= word_matches t words score.
Proof.
  revert score. induction words as [|word words IH]; intros score; cbn [word_matches].
  - lra.
  - destruct (includes t word && (2 <? String.length word)%nat)%bool.
    + specialize (IH (score + (1 # 10))). lra.
    + apply IH.
Qed.

Lemma text_step_ge (e : Entry) (description : string) (score : Q) :
  score <= text_step e description score.
Proof.
  unfold text_step.
  destruct (nonempty (elementText e) && includes description (elementText e))%bool; [lra|].
  destruct (nonempty (elementText e)); [apply word_matches_ge|lra].
Qed.

Lemma bonus_ge (c : bool) (q x y : Q) :
  0 <= q -> x <= y -> x <= (if c then y + q else y).
Proof. intros Hq Hxy. destruct c; lra. Qed.

(** X13: a score lies between 0 and 1. *)
Theorem score_is_between_0_and_1 (e : Entry) (description : string) :
  0 <= calculateMatchScore e description /\ calculateMatchScore e description <= 1.
Proof.
  unfold calculateMatchScore. split; [|apply Q.le_min_r].
  apply Q.min_glb; [|lra].
  do 3 (apply bonus_ge; [lra|]).
  eapply Qle_trans; [|apply text_step_ge].
  destruct (includes description (type e)); lra.
Qed.

Lemma search_entry_score (e : Entry) (description : string) :
  type e = "search"%string ->
  includes description "search" = true ->
  7 # 10 <= calculateMatchScore e description.
Proof.
  intros Htype Hsearch. unfold calculateMatchScore.
  rewrite Htype, Hsearch. cbn [String.eqb Ascii.eqb Bool.eqb andb].
  apply Q.min_glb; [|lra].
  assert (H : 0 + (3 # 10)
              <= (if (nonempty (lower_or_empty (placeholder e))
                      && includes description (lower_or_empty (placeholder e)))%bool
                  then (if (nonempty (lower_or_empty (ariaLabel e))
                            && includes description (lower_or_empty (ariaLabel e)))%bool
                        then text_step e description (0 + (3 # 10)) + (4 # 10)
                        else text_step e description (0 + (3 # 10))) + (3 # 10)
                  else (if (nonempty (lower_or_empty (ariaLabel e))
                            && includes description (lower_or_empty (ariaLabel e)))%bool
                        then text_step e description (0 + (3 # 10)) + (4 # 10)
                        else text_step e description (0 + (3 # 10))))).
  { do 2 (apply bonus_ge; [lra|]). apply text_step_ge. }
  lra.
Qed.

(** X14: a search entry scores at least 0.7 for every description that
    contains "search" (0.3 for its type and 0.4 for the search bonus), and
    so do the entries whose unique id, text or labels are anything else:
    the bound does not depend on them. *)
Theorem search_entry_scores_at_least_0_7 (e : Entry) (description : string) :
  type e = "search"%string ->
  includes description "search" = true ->
  7 # 10 <= calculateMatchScore e description
  /\ calculateMatchScore e description <= 1.
Proof.
  intros Htype Hsearch. split.
  - now apply search_entry_score.
  - apply Q.le_min_r.
Qed.

Lemma search_entry_scores_at_least_0_7_witness :
  7 # 10 <= calculateMatchScore search_entry_of_box "search bar"
  /\ calculateMatchScore search_entry_of_box "search bar" <= 1.
Proof.
  apply (search_entry_scores_at_least_0_7 search_entry_of_box "search bar"); reflexivity.
Defined.

End Resolver.

Section LocalResolver.
Import ElementDetector Examples.

Local Open Scope Q_scope.

Lemma Qgt_bool_true (a b : Q) : Qgt_bool a b = true <-> b < a.
Proof.
  unfold Qgt_bool. rewrite negb_true_iff. split.
  - intros H. apply Qnot_le_lt. intros Hle. apply Qle_bool_iff in Hle. congruence.
  - intros H. destruct (Qle_bool a b) eqn:E; [|reflexivity].
    apply Qle_bool_iff in E. lra.
Qed.

Lemma Qgt_bool_false (a b : Q) : Qgt_bool a b = false <-> a <= b.
Proof.
  unfold Qgt_bool. rewrite negb_false_iff. apply Qle_bool_iff.
Qed.

(** The loop of [findElementByDescription]: either no element beats the
    score it started with, or the result is the first element that
    reaches the highest score. *)
Lemma best_of_spec (elements : list Entry) (lowerDesc : string)
      (bestMatch : option Entry) (bestScore : Q) :
  (best_of elements lowerDesc bestMatch bestScore = (bestMatch, bestScore)
   /\ forall x, In x elements -> calculateMatchScore x lowerDesc <= bestScore)
  \/ exists el before after,
       best_of elements lowerDesc bestMatch bestScore
       = (Some el, calculateMatchScore el lowerDesc)
       /\ elements = before ++ el :: after
       /\ bestScore < calculateMatchScore el lowerDesc
       /\ (forall x, In x before ->
             calculateMatchScore x lowerDesc < calculateMatchScore el lowerDesc)
       /\ (forall x, In x after ->
             calculateMatchScore x lowerDesc <= calculateMatchScore el lowerDesc).
Proof.
  revert bestMatch bestScore.
  induction elements as [|a rest IH]; intros bestMatch bestScore; cbn [best_of].
  - left. split; [reflexivity|intros x []].
  - destruct (Qgt_bool (calculateMatchScore a lowerDesc) bestScore) eqn:Hgt.
    + apply Qgt_bool_true in Hgt. right.
      destruct (IH (Some a) (calculateMatchScore a lowerDesc))
        as [[Heq Hall]|(el & before & after & Heq & Hsplit & Hlt & Hbefore & Hafter)].
      * exists a, [], rest.
        split; [exact Heq|]. split; [reflexivity|]. split; [exact Hgt|].
        split; [intros x []|exact Hall].
      * exists el, (a :: before), after. subst rest.
        split; [exact Heq|]. split; [reflexivity|]. split; [lra|].
        split; [|exact Hafter].
        intros x [<-|Hx]; [exact Hlt|now apply Hbefore].
    + apply Qgt_bool_false in Hgt.
      destruct (IH bestMatch bestScore)
        as [[Heq Hall]|(el & before & after & Heq & Hsplit & Hlt & Hbefore & Hafter)].
      * left. split; [exact Heq|]. intros x [<-|Hx]; [exact Hgt|now apply Hall].
      * right. exists el, (a :: before), after. subst rest.
        split; [exact Heq|]. split; [reflexivity|]. split; [exact Hlt|].
        split; [|exact Hafter].
        intros x [<-|Hx]; [lra|now apply Hbefore].
Qed.

(** X17: when the catalog holds a search entry and the lower-cased
    description contains "search", [findElementByDescription] returns an
    element, and that element scores at least 0.7. *)
Theorem search_description_finds_an_element
        (catalog : list Entry) (description : string) (e : Entry) :
  In e catalog ->
  type e = "search"%string ->
  includes (toLowerCase description) "search" = true ->
  exists el,
    findElementByDescription catalog description = Some el
    /\ 7 # 10 <= calculateMatchScore el (toLowerCase description).
Proof.
  intros Hin Htype Hsearch.
  pose proof (search_entry_score e (toLowerCase description) Htype Hsearch) as Hscore.
  unfold findElementByDescription.
  destruct (String.eqb description EmptyString) eqn:Hempty.
  { apply String.eqb_eq in Hempty. subst description. discriminate Hsearch. }
  destruct (best_of_spec catalog (toLowerCase description) None 0)
    as [[Heq Hall]|(el & before & after & Heq & Hsplit & Hlt & Hbefore & Hafter)];
    rewrite Heq.
  - specialize (Hall e Hin). lra.
  - assert (Hbest : calculateMatchScore e (toLowerCase description)
                    <= calculateMatchScore el (toLowerCase description)).
    { rewrite Hsplit in Hin. apply in_app_or in Hin as [Hx|[<-|Hx]].
      - specialize (Hbefore e Hx). lra.
      - lra.
      - now apply Hafter. }
    assert (Hgt : Qgt_bool (calculateMatchScore el (toLowerCase description)) (3 # 10) = true)
      by (apply Qgt_bool_true; lra).
    rewrite Hgt. exists el. split; [reflexivity|lra].
Qed.

Lemma search_description_finds_an_element_witness :
  exists el,
    findElementByDescription [login_button; search_entry_of_box] "the Search bar" = Some el
    /\ 7 # 10 <= calculateMatchScore el (toLowerCase "the Search bar").
Proof.
  apply (search_description_finds_an_element
           [login_button; search_entry_of_box] "the Search bar" search_entry_of_box).
  - right. left. reflexivity.
  - reflexivity.
  - reflexivity.
Defined.

End LocalResolver.

(** ** The local resolver in double precision *)

Section DoubleResolver.
Import ElementDetector Examples.
Import PrimFloat SpecFloat FloatOps FloatAxioms.
Import PrimFloat.PrimFloatNotations.

#[local] Set Warnings "-inexact-float".

(** The order of the doubles, from the comparison of their signs,
    exponents and mantissas. *)
Ltac compare_cases :=
  repeat match goal with
         | H : context [Z.compare ?a ?b] |- _ => destruct (Z.compare_spec a b)
         | |- context [Z.compare ?a ?b] => destruct (Z.compare_spec a b)
         | H : context [Pos.compare_cont Eq ?a ?b] |- _ =>
             change (Pos.compare_cont Eq a b) with (Pos.compare a b) in *;
             destruct (Pos.compare_spec a b)
         | |- context [Pos.compare_cont Eq ?a ?b] =>
             change (Pos.compare_cont Eq a b) with (Pos.compare a b) in *;
             destruct (Pos.compare_spec a b)
         end.

Ltac float_cases x :=
  let s := fresh "s" in
  let m := fresh "m" in
  let e := fresh "e" in
  destruct x as [s|s| |s m e]; try destruct s.

Ltac order_cases :=
  intros; compare_cases; cbn in *; try discriminate; try reflexivity; try lia.

Lemma SFltb_trans (x y z : spec_float) :
  SFltb x y = true -> SFltb y z = true -> SFltb x z = true.
Proof.
  unfold SFltb, SFcompare.
  float_cases x; float_cases y; float_cases z; try discriminate; try reflexivity;
    order_cases.
Qed.

Lemma SFleb_trans (x y z : spec_float) :
  SFleb x y = true -> SFleb y z = true -> SFleb x z = true.
Proof.
  unfold SFleb, SFcompare.
  float_cases x; float_cases y; float_cases z; try discriminate; try reflexivity;
    order_cases.
Qed.

Lemma SFleb_ltb_trans (x y z : spec_float) :
  SFleb x y = true -> SFltb y z = true -> SFltb x z = true.
Proof.
  unfold SFleb, SFltb, SFcompare.
  float_cases x; float_cases y; float_cases z; try discriminate; try reflexivity;
    order_cases.
Qed.

Lemma SFltb_leb (x y : spec_float) : SFltb x y = true -> SFleb x y = true.
Proof.
  unfold SFleb, SFltb. now destruct (SFcompare x y) as [[| |]|].
Qed.

Lemma SFltb_false (x y : spec_float) :
  Ieee.not_negative x = true -> Ieee.not_negative y = true ->
  SFltb x y = false -> SFleb y x = true.
Proof.
  unfold SFleb, SFltb, SFcompare, Ieee.not_negative.
  float_cases x; float_cases y; try discriminate; try reflexivity; order_cases.
Qed.

Lemma SFltb_not_leb (x y : spec_float) :
  SFltb x y = true -> SFleb y x = false.
Proof.
  unfold SFleb, SFltb, SFcompare.
  float_cases x; float_cases y; try discriminate; try reflexivity; order_cases.
Qed.

Lemma SFeqb_refl (x : spec_float) : Ieee.not_negative x = true -> SFeqb x x = true.
Proof.
  unfold SFeqb, SFcompare, Ieee.not_negative.
  float_cases x; try discriminate; try reflexivity; intros _.
  rewrite Z.compare_refl. change (Pos.compare_cont Eq m m) with (Pos.compare m m).
  now rewrite Pos.compare_refl.
Qed.

(** The same on the doubles of the code. *)
Lemma ltb_trans (x y z : float) :
  (x <? y)%float = true -> (y <? z)%float = true -> (x <? z)%float = true.
Proof. rewrite !ltb_spec. apply SFltb_trans. Qed.

Lemma leb_trans (x y z : float) :
  (x <=? y)%float = true -> (y <=? z)%float = true -> (x <=? z)%float = true.
Proof. rewrite !leb_spec. apply SFleb_trans. Qed.

Lemma leb_ltb_trans (x y z : float) :
  (x <=? y)%float = true -> (y <? z)%float = true -> (x <? z)%float = true.
Proof. rewrite !leb_spec, !ltb_spec. apply SFleb_ltb_trans. Qed.

Lemma ltb_leb (x y : float) : (x <? y)%float = true -> (x <=? y)%float = true.
Proof. rewrite leb_spec, ltb_spec. apply SFltb_leb. Qed.

Lemma ltb_false (x y : float) :
  Ieee.not_negative (Prim2SF x) = true -> Ieee.not_negative (Prim2SF y) = true ->
  (x <? y)%float = false -> (y <=? x)%float = true.
Proof. rewrite leb_spec, ltb_spec. apply SFltb_false. Qed.

Lemma ltb_not_leb (x y : float) :
  (x <? y)%float = true -> (y <=? x)%float = false.
Proof. rewrite leb_spec, ltb_spec. apply SFltb_not_leb. Qed.

Lemma not_negative_is_a_number (x : float) :
  Ieee.not_negative (Prim2SF x) = true -> is_nan x = false.
Proof.
  intros H. unfold is_nan. rewrite eqb_spec. now rewrite SFeqb_refl.
Qed.

(** The sum of two doubles that are not negative is not negative; in
    particular it is a number. *)
Lemma shr_1_not_negative (mrs : shr_record) :
  Ieee.Z_not_negative (shr_m mrs) = true ->
  Ieee.Z_not_negative (shr_m (shr_1 mrs)) = true.
Proof.
  destruct mrs as [m r s]. cbn. destruct m as [|p|p]; [reflexivity| |discriminate].
  now destruct p.
Qed.

Lemma iter_shr_1_not_negative (p : positive) :
  forall mrs : shr_record,
    Ieee.Z_not_negative (shr_m mrs) = true ->
    Ieee.Z_not_negative (shr_m (iter_pos shr_1 p mrs)) = true.
Proof.
  induction p as [p IH|p IH|]; intros mrs H; cbn.
  - apply IH, IH, shr_1_not_negative, H.
  - apply IH, IH, H.
  - apply shr_1_not_negative, H.
Qed.

Lemma shr_fexp_not_negative (m e : Z) (l : location) :
  Ieee.Z_not_negative m = true ->
  Ieee.Z_not_negative (shr_m (fst (shr_fexp prec emax m e l))) = true.
Proof.
  intros H. unfold shr_fexp, shr.
  assert (H0 : Ieee.Z_not_negative (shr_m (shr_record_of_loc m l)) = true).
  { destruct l as [|[| |]]; exact H. }
  destruct (fexp prec emax (Zdigits2 m + e) - e)%Z; cbn [fst]; [exact H0| |exact H0].
  now apply iter_shr_1_not_negative.
Qed.

Lemma round_nearest_even_not_negative (m : Z) (l : location) :
  Ieee.Z_not_negative m = true ->
  Ieee.Z_not_negative (round_nearest_even m l) = true.
Proof.
  intros H. destruct m as [|p|p]; [| |discriminate].
  - destruct l as [|[| |]]; reflexivity.
  - destruct l as [|[| |]]; try reflexivity; now destruct p.
Qed.

Lemma binary_round_aux_not_negative (m e : Z) (l : location) :
  Ieee.Z_not_negative m = true ->
  Ieee.not_negative (binary_round_aux prec emax false m e l) = true.
Proof.
  intros H. unfold binary_round_aux.
  pose proof (shr_fexp_not_negative m e l H) as H1.
  destruct (shr_fexp prec emax m e l) as [mrs' e']. cbn [fst] in H1.
  pose proof (shr_fexp_not_negative _ e' loc_Exact
                (round_nearest_even_not_negative (shr_m mrs') (loc_of_shr_record mrs') H1))
    as H2.
  destruct (shr_fexp prec emax _ e' loc_Exact) as [mrs'' e'']. cbn [fst] in H2.
  destruct (shr_m mrs'') as [|p|p]; [reflexivity| |discriminate].
  now destruct (e'' <=? emax - prec)%Z.
Qed.

Lemma SFadd_not_negative (x y : spec_float) :
  Ieee.not_negative x = true -> Ieee.not_negative y = true ->
  Ieee.not_negative (SF64add x y) = true.
Proof.
  unfold SF64add.
  destruct x as [sx|sx| |sx mx ex], y as [sy|sy| |sy my ey]; cbn [Ieee.not_negative];
    try discriminate; intros Hx Hy.
  - cbn. now destruct sx, sy.
  - exact Hy.
  - exact Hy.
  - exact Hx.
  - apply negb_true_iff in Hx, Hy. now subst.
  - exact Hx.
  - exact Hx.
  - exact Hy.
  - apply negb_true_iff in Hx, Hy. subst sx sy.
    cbn [SFadd cond_Zopp Z.add binary_normalize]. unfold binary_round.
    destruct (shl_align _ _ _) as [mz ez]. now apply binary_round_aux_not_negative.
Qed.

Lemma add_not_negative (x y : float) :
  Ieee.not_negative (Prim2SF x) = true -> Ieee.not_negative (Prim2SF y) = true ->
  Ieee.not_negative (Prim2SF (x + y)) = true.
Proof. rewrite add_spec. apply SFadd_not_negative. Qed.

Lemma Math_min_not_negative (a b : float) :
  Ieee.not_negative (Prim2SF a) = true -> Ieee.not_negative (Prim2SF b) = true ->
  Ieee.not_negative (Prim2SF (Ieee.Math_min a b)) = true.
Proof.
  intros Ha Hb. unfold Ieee.Math_min.
  rewrite (not_negative_is_a_number a Ha), (not_negative_is_a_number b Hb).
  cbn [orb].
  destruct (a <? b)%float; [exact Ha|].
  destruct (b <? a)%float; [exact Hb|].
  now destruct (classify a).
Qed.

Lemma step_not_negative (c : bool) (score bonus : float) :
  Ieee.not_negative (Prim2SF bonus) = true ->
  Ieee.not_negative (Prim2SF score) = true ->
  Ieee.not_negative (Prim2SF (if c then (score + bonus)%float else score)) = true.
Proof.
  intros Hb Hs. destruct c; [now apply add_not_negative|exact Hs].
Qed.

Lemma word_matches_not_negative (t : string) (words : list string) (score : float) :
  Ieee.not_negative (Prim2SF score) = true ->
  Ieee.not_negative (Prim2SF (Ieee.word_matches t words score)) = true.
Proof.
  revert score. induction words as [|word words IH]; intros score H;
    cbn [Ieee.word_matches]; [exact H|].
  apply IH. now apply step_not_negative.
Qed.

Lemma text_step_not_negative (e : Entry) (description : string) (score : float) :
  Ieee.not_negative (Prim2SF score) = true ->
  Ieee.not_negative (Prim2SF (Ieee.text_step e description score)) = true.
Proof.
  intros H. unfold Ieee.text_step.
  destruct (nonempty (elementText e) && includes description (elementText e))%bool.
  - now apply add_not_negative.
  - destruct (nonempty (elementText e)); [now apply word_matches_not_negative|exact H].
Qed.

(** A score is a number, and it is not negative. *)
Lemma score_not_negative (e : Entry) (description : string) :
  Ieee.not_negative (Prim2SF (Ieee.calculateMatchScore e description)) = true.
Proof.
  unfold Ieee.calculateMatchScore.
  apply Math_min_not_negative; [|reflexivity].
  do 3 (apply step_not_negative; [reflexivity|]).
  apply text_step_not_negative.
  now apply step_not_negative.
Qed.

(** The loop of [findElementByDescription] on doubles: either no element
    beats the score it started with, or the result is the first element
    that reaches the highest score. *)
Lemma best_of_double (elements : list Entry) (lowerDesc : string)
      (bestMatch : option Entry) (bestScore : float) :
  Ieee.not_negative (Prim2SF bestScore) = true ->
  (Ieee.best_of elements lowerDesc bestMatch bestScore = (bestMatch, bestScore)
   /\ forall x, In x elements ->
        (Ieee.calculateMatchScore x lowerDesc <=? bestScore)%float = true)
  \/ exists el before after,
       Ieee.best_of elements lowerDesc bestMatch bestScore
       = (Some el, Ieee.calculateMatchScore el lowerDesc)
       /\ elements = before ++ el :: after
       /\ (bestScore <? Ieee.calculateMatchScore el lowerDesc)%float = true
       /\ (forall x, In x before ->
             (Ieee.calculateMatchScore x lowerDesc
              <? Ieee.calculateMatchScore el lowerDesc)%float = true)
       /\ (forall x, In x after ->
             (Ieee.calculateMatchScore x lowerDesc
              <=? Ieee.calculateMatchScore el lowerDesc)%float = true).
Proof.
  revert bestMatch bestScore.
  induction elements as [|a rest IH]; intros bestMatch bestScore Hbest;
    cbn [Ieee.best_of].
  - left. split; [reflexivity|intros x []].
  - pose proof (score_not_negative a lowerDesc) as Ha.
    destruct (bestScore <? Ieee.calculateMatchScore a lowerDesc)%float eqn:Hgt.
    + right.
      destruct (IH (Some a) (Ieee.calculateMatchScore a lowerDesc) Ha)
        as [[Heq Hall]|(el & before & after & Heq & Hsplit & Hlt & Hbefore & Hafter)].
      * exists a, [], rest.
        split; [exact Heq|]. split; [reflexivity|]. split; [exact Hgt|].
        split; [intros x []|exact Hall].
      * exists el, (a :: before), after. subst rest.
        split; [exact Heq|]. split; [reflexivity|].
        split; [exact (ltb_trans _ _ _ Hgt Hlt)|].
        split; [|exact Hafter].
        intros x [<-|Hx]; [exact Hlt|now apply Hbefore].
    + apply (ltb_false _ _ Hbest Ha) in Hgt.
      destruct (IH bestMatch bestScore Hbest)
        as [[Heq Hall]|(el & before & after & Heq & Hsplit & Hlt & Hbefore & Hafter)].
      * left. split; [exact Heq|]. intros x [<-|Hx]; [exact Hgt|now apply Hall].
      * right. exists el, (a :: before), after. subst rest.
        split; [exact Heq|]. split; [reflexivity|]. split; [exact Hlt|].
        split; [|exact Hafter].
        intros x [<-|Hx]; [exact (leb_ltb_trans _ _ _ Hgt Hlt)|now apply Hbefore].
Qed.

(** X15: the element that [findElementByDescription] returns is in the
    catalog, its score for the lower-cased description is more than 0.3
    and at least the score of every other element, and it is the first of
    the catalog to reach that score; the scores are the doubles that the
    code compares. *)
Theorem findElementByDescription_returns_first_best
        (catalog : list Entry) (description : string) (el : Entry) :
  Ieee.findElementByDescription catalog description = Some el ->
  description <> EmptyString
  /\ (0.3 <? Ieee.calculateMatchScore el (toLowerCase description))%float = true
  /\ exists before after,
       catalog = before ++ el :: after
       /\ (forall x, In x before ->
             (Ieee.calculateMatchScore x (toLowerCase description)
              <? Ieee.calculateMatchScore el (toLowerCase description))%float = true)
       /\ (forall x, In x after ->
             (Ieee.calculateMatchScore x (toLowerCase description)
              <=? Ieee.calculateMatchScore el (toLowerCase description))%float = true).
Proof.
  unfold Ieee.findElementByDescription.
  destruct (String.eqb description EmptyString) eqn:Hempty; [discriminate|].
  apply String.eqb_neq in Hempty. intros Hfind. split; [exact Hempty|].
  destruct (best_of_double catalog (toLowerCase description) None 0%float eq_refl)
    as [[Heq Hall]|(el' & before & after & Heq & Hsplit & Hlt & Hbefore & Hafter)];
    rewrite Heq in Hfind.
  - destruct (0.3 <? 0)%float; discriminate.
  - destruct (0.3 <? Ieee.calculateMatchScore el' (toLowerCase description))%float eqn:Hgt;
      [|discriminate].
    injection Hfind as <-.
    split; [exact Hgt|]. now exists before, after.
Qed.

Lemma findElementByDescription_returns_first_best_witness :
  "Button log ogi gin here"%string <> EmptyString
  /\ (0.3 <? Ieee.calculateMatchScore login_field
                (toLowerCase "Button log ogi gin here"))%float = true
  /\ exists before after,
       [login_button; login_field] = before ++ login_field :: after
       /\ (forall x, In x before ->
             (Ieee.calculateMatchScore x (toLowerCase "Button log ogi gin here")
              <? Ieee.calculateMatchScore login_field
                   (toLowerCase "Button log ogi gin here"))%float = true)
       /\ (forall x, In x after ->
             (Ieee.calculateMatchScore x (toLowerCase "Button log ogi gin here")
              <=? Ieee.calculateMatchScore login_field
                    (toLowerCase "Button log ogi gin here"))%float = true).
Proof.
  apply (findElementByDescription_returns_first_best
           [login_button; login_field] "Button log ogi gin here" login_field).
  vm_compute. reflexivity.
Defined.

(** X16: [findElementByDescription] returns no element exactly when the
    description is empty or the score of every element of the catalog for
    the lower-cased description is at most 0.3; the scores are the doubles
    that the code compares. *)
Theorem findElementByDescription_no_match (catalog : list Entry) (description : string) :
  Ieee.findElementByDescription catalog description = None
  <-> description = EmptyString
      \/ forall x, In x catalog ->
           (Ieee.calculateMatchScore x (toLowerCase description) <=? 0.3)%float = true.
Proof.
  unfold Ieee.findElementByDescription.
  destruct (String.eqb description EmptyString) eqn:Hempty.
  - apply String.eqb_eq in Hempty. split; [now left|reflexivity].
  - apply String.eqb_neq in Hempty.
    destruct (best_of_double catalog (toLowerCase description) None 0%float eq_refl)
      as [[Heq Hall]|(el & before & after & Heq & Hsplit & Hlt & Hbefore & Hafter)];
      rewrite Heq.
    + split.
      * intros _. right. intros x Hx.
        apply (leb_trans _ 0%float); [now apply Hall|reflexivity].
      * intros _. reflexivity.
    + destruct (0.3 <? Ieee.calculateMatchScore el (toLowerCase description))%float eqn:Hgt.
      * split; [discriminate|].
        intros [Hd|Hall]; [contradiction|].
        assert (Hel : In el catalog) by (rewrite Hsplit; apply in_elt).
        specialize (Hall el Hel). apply ltb_not_leb in Hgt. congruence.
      * apply ltb_false in Hgt; [|reflexivity|apply score_not_negative].
        split; [|reflexivity].
        intros _. right. intros x Hx. rewrite Hsplit in Hx.
        apply in_app_or in Hx as [Hx|[<-|Hx]].
        -- apply (leb_trans _ (Ieee.calculateMatchScore el (toLowerCase description)));
             [|exact Hgt].
           apply ltb_leb. now apply Hbefore.
        -- exact Hgt.
        -- apply (leb_trans _ (Ieee.calculateMatchScore el (toLowerCase description)));
             [|exact Hgt].
           now apply Hafter.
Qed.

(** Three partial words are worth 0.30000000000000004, which passes the
    threshold; the exact sum, three tenths, does not. *)
Example three_partial_words_pass_the_threshold :
  Ieee.findElementByDescription [login_button] "log ogi gin" = Some login_button
  /\ (0.3 <? Ieee.calculateMatchScore login_button "log ogi gin")%float = true
  /\ Qeq (calculateMatchScore login_button "log ogi gin") (3 # 10).
Proof.
  split; [vm_compute; reflexivity|]. split; reflexivity.
Qed.

End DoubleResolver.

(** ** Statistics of the catalog *)

Section Statistics.
Import ElementDetector Examples.

Lemma counter_set_same (byType : counters) (t : string) (n : nat) :
  counter (set_counter byType t n) t = n.
Proof.
  induction byType as [|[t0 m] rest IH]; cbn [set_counter counter].
  - now rewrite String.eqb_refl.
  - destruct (String.eqb t t0) eqn:E; cbn [counter]; rewrite E; [reflexivity|exact IH].
Qed.

Lemma counter_set_other (byType : counters) (t t' : string) (n : nat) :
  t' <> t -> counter (set_counter byType t n) t' = counter byType t'.
Proof.
  intros Hne. apply String.eqb_neq in Hne.
  induction byType as [|[t0 m] rest IH]; cbn [set_counter counter].
  - now rewrite Hne.
  - destruct (String.eqb t t0) eqn:E; cbn [counter].
    + apply String.eqb_eq in E. subst t0. now rewrite Hne.
    + now rewrite IH.
Qed.

Lemma sum_set_counter (byType : counters) (t : string) (n : nat) :
  (sum_counters (set_counter byType t n) + counter byType t
   = sum_counters byType + n)%nat.
Proof.
  induction byType as [|[t0 m] rest IH]; cbn [set_counter counter sum_counters fold_right snd].
  - lia.
  - destruct (String.eqb t t0); cbn [sum_counters fold_right snd].
    + lia.
    + fold (sum_counters (set_counter rest t n)). fold (sum_counters rest). lia.
Qed.

(** The loop of [getStats], from any counters. *)
Lemma count_loop (entries : list Entry) (byType : counters) (t : string) :
  counter
    (fold_left
       (fun byType element =>
          set_counter byType (type element) (counter byType (type element) + 1))
       entries byType) t
  = (counter byType t + count_type t entries)%nat
  /\ sum_counters
       (fold_left
          (fun byType element =>
             set_counter byType (type element) (counter byType (type element) + 1))
          entries byType)
     = (sum_counters byType + List.length entries)%nat.
Proof.
  revert byType. induction entries as [|entry rest IH]; intros byType; cbn [fold_left].
  - unfold count_type. cbn [filter List.length]. lia.
  - destruct (IH (set_counter byType (type entry) (counter byType (type entry) + 1)))
      as [Hc Hs].
    rewrite Hc, Hs. unfold count_type. cbn [filter List.length].
    pose proof (sum_set_counter byType (type entry) (counter byType (type entry) + 1)).
    split; [|lia].
    destruct (String.eqb (type entry) t) eqn:E.
    + apply String.eqb_eq in E. subst t. rewrite counter_set_same. cbn [List.length]. lia.
    + rewrite counter_set_other; [reflexivity|].
      intros ->. now rewrite String.eqb_refl in E.
Qed.

(** X18: in the result of [getStats], the counter of a type is the number
    of entries of that type (0 for a type that does not occur), and the
    counters add up to [total], the number of entries. *)
Theorem getStats_counts (entries : list Entry) :
  total (getStats entries) = List.length entries
  /\ sum_counters (byType (getStats entries)) = total (getStats entries)
  /\ forall t, counter (byType (getStats entries)) t = count_type t entries.
Proof.
  unfold getStats. cbn [total byType].
  split; [reflexivity|]. split.
  - now destruct (count_loop entries [] EmptyString) as [_ ->].
  - intros t. now destruct (count_loop entries [] t) as [-> _].
Qed.

End Statistics.

(** ** The executor: what an action touches *)

Section ExecutorFrames.
Import ActionExecutor Examples Scenarios.

Lemma highlighted_after_removeHighlight (w : World) :
  highlightedElement (removeHighlight w) = None.
Proof.
  unfold removeHighlight. destruct (highlightedElement w) eqn:E; [reflexivity|exact E].
Qed.

Lemma removeHighlight_of_none (w : World) :
  highlightedElement w = None -> removeHighlight w = w.
Proof. intros H. unfold removeHighlight. now rewrite H. Qed.

Lemma removeHighlight_data (w : World) (r : ref) :
  data_of (dom (removeHighlight w) r) = data_of (dom w r).
Proof.
  unfold removeHighlight. destruct (highlightedElement w) as [h|]; [|reflexivity].
  cbn [with_highlight write dom].
  destruct (Nat.eqb_spec r (h_element h)) as [->|_]; reflexivity.
Qed.

Lemma removeHighlight_frame (w : World) :
  now (removeHighlight w) = now w /\ timers (removeHighlight w) = timers w
  /\ labels (removeHighlight w) = labels w.
Proof.
  unfold removeHighlight. now destruct (highlightedElement w).
Qed.

(** The first step of [highlightElement] is [removeHighlight]. *)
Lemma highlightElement_first_step (w : World) :
  match highlightedElement w with
  | Some _ => removeHighlight w
  | None => w
  end = removeHighlight w.
Proof.
  destruct (highlightedElement w) eqn:E; [reflexivity|].
  symmetry. now apply removeHighlight_of_none.
Qed.

Lemma highlightElement_data (element : ref) (actionType : string) (w : World) (r : ref) :
  data_of (dom (highlightElement element actionType w) r) = data_of (dom w r).
Proof.
  unfold highlightElement. rewrite highlightElement_first_step.
  cbn [createActionLabel setTimeout with_highlight write dom].
  rewrite <- (removeHighlight_data w r).
  destruct (Nat.eqb_spec r element) as [->|_]; reflexivity.
Qed.

Lemma fires_data (due : list (nat * nat)) (w : World) (r : ref) :
  data_of (dom (fold_left (fun w t => fire (snd t) w) due w) r) = data_of (dom w r).
Proof.
  revert w. induction due as [|t due IH]; intros w; cbn [fold_left]; [reflexivity|].
  rewrite IH. cbn [fire dom]. apply removeHighlight_data.
Qed.

Lemma sleep_data (ms : nat) (w : World) (r : ref) :
  data_of (dom (sleep ms w) r) = data_of (dom w r).
Proof. unfold sleep. cbn [dom]. apply fires_data. Qed.

(** Up to the moment it acts on the element, an action has changed
    nothing but styles. *)
Lemma approach_data (element : ref) (actionType : string) (options : Options)
      (w : World) (r : ref) :
  data_of
    (dom (sleep (delay_ms (delay options))
            (scrollIntoView element
               (if not_false (highlight options)
                then highlightElement element actionType w else w))) r)
  = data_of (dom w r).
Proof.
  rewrite sleep_data. cbn [scrollIntoView dom].
  destruct (not_false (highlight options)); [apply highlightElement_data|reflexivity].
Qed.

(** Nor has it changed the active element or the action recorded
    last. *)
Lemma removeHighlight_executor (w : World) :
  activeElement (removeHighlight w) = activeElement w
  /\ lastAction (removeHighlight w) = lastAction w.
Proof.
  unfold removeHighlight. now destruct (highlightedElement w).
Qed.

Lemma highlightElement_executor (element : ref) (actionType : string) (w : World) :
  activeElement (highlightElement element actionType w) = activeElement w
  /\ lastAction (highlightElement element actionType w) = lastAction w.
Proof.
  unfold highlightElement. rewrite highlightElement_first_step.
  cbn [createActionLabel setTimeout with_highlight write activeElement lastAction].
  apply removeHighlight_executor.
Qed.

Lemma fires_executor (due : list (nat * nat)) (w : World) :
  activeElement (fold_left (fun w t => fire (snd t) w) due w) = activeElement w
  /\ lastAction (fold_left (fun w t => fire (snd t) w) due w) = lastAction w.
Proof.
  revert w. induction due as [|t due IH]; intros w; cbn [fold_left]; [now split|].
  destruct (IH (fire (snd t) w)) as [Ha Hl]. rewrite Ha, Hl.
  cbn [fire activeElement lastAction]. apply removeHighlight_executor.
Qed.

Lemma approach_executor (element : ref) (actionType : string) (options : Options)
      (w : World) :
  activeElement
    (sleep (delay_ms (delay options))
       (scrollIntoView element
          (if not_false (highlight options)
           then highlightElement element actionType w else w)))
  = activeElement w
  /\ lastAction
       (sleep (delay_ms (delay options))
          (scrollIntoView element
             (if not_false (highlight options)
              then highlightElement element actionType w else w)))
     = lastAction w.
Proof.
  unfold sleep. cbn [activeElement lastAction].
  destruct (fires_executor
              (filter (fun t => (fst t <=? now (scrollIntoView element
                                   (if not_false (highlight options)
                                    then highlightElement element actionType w else w))
                                   + delay_ms (delay options))%nat)
                 (timers (scrollIntoView element
                            (if not_false (highlight options)
                             then highlightElement element actionType w else w))))
              (scrollIntoView element
                 (if not_false (highlight options)
                  then highlightElement element actionType w else w))) as [Ha Hl].
  rewrite Ha, Hl. cbn [scrollIntoView activeElement lastAction].
  destruct (not_false (highlight options)); [apply highlightElement_executor|now split].
Qed.

(** The page that the host finds when an action reaches the element: the
    page of the start, but for the styles. *)
Lemma approach_page (element : ref) (actionType : string) (options : Options)
      (w : World) :
  let w1 := sleep (delay_ms (delay options))
              (scrollIntoView element
                 (if not_false (highlight options)
                  then highlightElement element actionType w else w)) in
  (forall r, data_of (dom w1 r) = data_of (dom w r))
  /\ activeElement w1 = activeElement w
  /\ lastAction w1 = lastAction w.
Proof.
  intros w1. split; [intros r; apply approach_data|apply approach_executor].
Qed.



(** X21: [executeFocus] on an element succeeds, whether or not the element
    took the focus, and records a focus action; what it does to the
    elements and to the active element is what [element.focus()] does to a
    page that differs from the page of the start in styles only. So it
    changes a value only if [focus()] does. *)
Theorem executeFocus_does_what_focus_does
        (host : Host) (element : ref) (options : Options) (w : World) :
  success (fst (executeFocus host (Some element) options w)) = true
  /\ option_map a_type (getLastAction (snd (executeFocus host (Some element) options w)))
     = Some "focus"%string
  /\ (exists page : Page,
        (forall r, data_of (fst page r) = data_of (dom w r))
        /\ snd page = activeElement w
        /\ dom (snd (executeFocus host (Some element) options w))
           = fst (focus host element page)
        /\ activeElement (snd (executeFocus host (Some element) options w))
           = snd (focus host element page))
  /\ ((forall (page : Page) r,
         value (fst (focus host element page) r) = value (fst page r)) ->
      forall r,
        value (dom (snd (executeFocus host (Some element) options w)) r)
        = value (dom w r)).
Proof.
  cbn [executeFocus fst snd].
  destruct (approach_page element "focus" options w) as (Hdata & Hactive & _).
  set (w1 := sleep _ _) in *.
  split; [reflexivity|]. split; [reflexivity|]. split.
  - exists (dom w1, activeElement w1). cbn [fst snd].
    split; [exact Hdata|]. split; [exact Hactive|]. split; reflexivity.
  - intros Hfocus r. cbn [record_action on_page dom].
    rewrite Hfocus. cbn [fst].
    specialize (Hdata r). unfold data_of in Hdata. congruence.
Qed.

(** The text that [executeClick] reports is never empty. *)
Lemma shown_text_cases (textContent : option string) (e : HTMLElement) :
  shown_text textContent e <> EmptyString
  /\ (option_map trim textContent = Some (shown_text textContent e)
      \/ shown_text textContent e = value e
      \/ shown_text textContent e = "element"%string).
Proof.
  unfold shown_text. destruct textContent as [t|]; cbn [option_map].
  - destruct (String.eqb (trim t) EmptyString) eqn:Ht.
    + destruct (String.eqb (value e) EmptyString) eqn:Hv.
      * split; [discriminate|]. right. right. reflexivity.
      * apply String.eqb_neq in Hv. split; [exact Hv|]. right. left. reflexivity.
    + apply String.eqb_neq in Ht. split; [exact Ht|]. left. reflexivity.
  - destruct (String.eqb (value e) EmptyString) eqn:Hv.
    + split; [discriminate|]. right. right. reflexivity.
    + apply String.eqb_neq in Hv. split; [exact Hv|]. right. left. reflexivity.
Qed.

(** X22: [executeClick] on an element succeeds, whether or not the element
    received the click, and records a click action; what it does to the
    elements and to the active element is what [element.click()] does to a
    page that differs from the page of the start in styles only; and the
    element text it reports is never empty: it is the trimmed text
    content, or else the value after the click, or else "element". *)
Theorem executeClick_does_what_click_does
        (host : Host) (textContent : ref -> option string) (element : ref)
        (options : Options) (w : World) :
  c_success (fst (executeClick host textContent (Some element) options w)) = true
  /\ option_map a_type
       (getLastAction (snd (executeClick host textContent (Some element) options w)))
     = Some "click"%string
  /\ (exists page : Page,
        (forall r, data_of (fst page r) = data_of (dom w r))
        /\ snd page = activeElement w
        /\ dom (snd (executeClick host textContent (Some element) options w))
           = fst (click host element page)
        /\ activeElement (snd (executeClick host textContent (Some element) options w))
           = snd (click host element page))
  /\ exists shown,
       elementText (fst (executeClick host textContent (Some element) options w))
       = Some shown
       /\ shown <> EmptyString
       /\ (option_map trim (textContent element) = Some shown
           \/ shown
              = value (dom (snd (executeClick host textContent (Some element) options w))
                         element)
           \/ shown = "element"%string).
Proof.
  cbn [executeClick fst snd].
  destruct (approach_page element "click" options w) as (Hdata & Hactive & _).
  set (w1 := sleep _ _) in *.
  split; [reflexivity|]. split; [reflexivity|]. split.
  - exists (dom w1, activeElement w1). cbn [fst snd].
    split; [exact Hdata|]. split; [exact Hactive|]. split; reflexivity.
  - cbn [elementText record_action dom].
    eexists. split; [reflexivity|]. apply shown_text_cases.
Qed.

(** X30: when the value setter throws for the text (and has not thrown for
    the clearing before it), [executeType] fails with the message of the
    exception, records no action and dispatches neither [input] nor
    [change]: the events of the page are those that [element.focus()]
    leaves on a page that differs from the page of the start in styles
    only. *)
Theorem executeType_fails_when_the_setter_throws
        (host : Host) (element : ref) (text : string) (options : Options) (w : World)
        (message : string) :
  setValue host element text = Thrown message ->
  (not_false (clear options) = true ->
   exists s, setValue host element EmptyString = Stored s) ->
  fst (executeType host (Some element) text options w) = failed message
  /\ getLastAction (snd (executeType host (Some element) text options w))
     = getLastAction w
  /\ exists page : Page,
       (forall r, data_of (fst page r) = data_of (dom w r))
       /\ snd page = activeElement w
       /\ forall r,
            events (dom (snd (executeType host (Some element) text options w)) r)
            = events (fst (focus host element page) r).
Proof.
  intros Hthrown Hclear. cbn [executeType].
  destruct (approach_page element "type" options w) as (Hdata & Hactive & Hlast).
  set (w1 := sleep _ _) in *.
  unfold assign. rewrite Hthrown.
  destruct (not_false (clear options)).
  - destruct (Hclear eq_refl) as [s Hs]. rewrite Hs. cbn [fst snd].
    split; [reflexivity|]. split; [exact Hlast|].
    exists (dom w1, activeElement w1). cbn [fst snd].
    split; [exact Hdata|]. split; [exact Hactive|].
    intros r. cbn [write on_page dom].
    destruct (Nat.eqb_spec r element) as [->|_]; reflexivity.
  - cbn [fst snd]. split; [reflexivity|]. split; [exact Hlast|].
    exists (dom w1, activeElement w1). cbn [fst snd].
    split; [exact Hdata|]. split; [exact Hactive|]. reflexivity.
Qed.

Lemma executeType_fails_when_the_setter_throws_witness :
  fst (executeType file_inputs (Some 1%nat) "report.pdf" default_options upload_page)
  = failed "This input element accepts a filename, which may only be programmatically set to the empty string."
  /\ getLastAction (snd (executeType file_inputs (Some 1%nat) "report.pdf" default_options
                           upload_page))
     = getLastAction upload_page
  /\ exists page : Page,
       (forall r, data_of (fst page r) = data_of (dom upload_page r))
       /\ snd page = activeElement upload_page
       /\ forall r,
            events (dom (snd (executeType file_inputs (Some 1%nat) "report.pdf"
                                default_options upload_page)) r)
            = events (fst (focus file_inputs 1%nat page) r).
Proof.
  apply (executeType_fails_when_the_setter_throws file_inputs 1%nat "report.pdf"
           default_options upload_page).
  - reflexivity.
  - intros _. exists EmptyString. reflexivity.
Defined.

End ExecutorFrames.

(** ** The highlight and its timers *)

Section HighlightLifecycle.
Import ActionExecutor Examples Scenarios.

Lemma restore_style (e : HTMLElement) (lit : Style) :
  set_style {| outline := outline (style e);
               outlineOffset := outlineOffset (style e);
               zIndex := zIndex (style e) |} (set_style lit e) = e.
Proof. destruct e as [t ty v [o oo z] d ev]. reflexivity. Qed.

(** Removing the highlight just set gives back the page as it was once
    the previous highlight, if any, was removed. *)
Lemma highlight_then_remove (element : ref) (actionType : string) (w : World) (r : ref) :
  dom (removeHighlight (highlightElement element actionType w)) r
  = dom (removeHighlight w) r.
Proof.
  unfold highlightElement. rewrite highlightElement_first_step.
  set (w1 := removeHighlight w).
  cbn [createActionLabel setTimeout with_highlight removeHighlight
       highlightedElement h_element originalOutline originalOutlineOffset
       originalZIndex write dom].
  rewrite Nat.eqb_refl.
  destruct (Nat.eqb_spec r element) as [->|_]; [apply restore_style|reflexivity].
Qed.

(** X23: [removeHighlight] is idempotent, and it undoes
    [highlightElement]: after it no element is highlighted and every
    element, style included, is as it was once the previous highlight, if
    any, was removed; in particular the style that the highlighted element
    had is restored, not a default. *)
Theorem removeHighlight_undoes_highlightElement
        (element : ref) (actionType : string) (w : World) :
  removeHighlight (removeHighlight w) = removeHighlight w
  /\ highlightedElement (removeHighlight (highlightElement element actionType w)) = None
  /\ forall r,
       dom (removeHighlight (highlightElement element actionType w)) r
       = dom (removeHighlight w) r.
Proof.
  split; [|split].
  - apply removeHighlight_of_none, highlighted_after_removeHighlight.
  - apply highlighted_after_removeHighlight.
  - apply highlight_then_remove.
Qed.

Lemma fires_of_none (due : list (nat * nat)) (w : World) :
  highlightedElement w = None ->
  highlightedElement (fold_left (fun w t => fire (snd t) w) due w) = None
  /\ dom (fold_left (fun w t => fire (snd t) w) due w) = dom w.
Proof.
  revert w. induction due as [|t due IH]; intros w Hnone; cbn [fold_left]; [now split|].
  assert (Hfire : highlightedElement (fire (snd t) w) = None
                  /\ dom (fire (snd t) w) = dom w).
  { cbn [fire highlightedElement dom]. now rewrite (removeHighlight_of_none _ Hnone). }
  destruct Hfire as [Hh Hd]. destruct (IH _ Hh) as [IHh IHd].
  split; [exact IHh|]. now rewrite IHd.
Qed.

(** As soon as one timer fires, the highlight is gone. *)
Lemma fires_remove_highlight (due : list (nat * nat)) (w : World) :
  due <> [] ->
  highlightedElement (fold_left (fun w t => fire (snd t) w) due w) = None
  /\ dom (fold_left (fun w t => fire (snd t) w) due w) = dom (removeHighlight w).
Proof.
  destruct due as [|t due]; [congruence|]. intros _. cbn [fold_left].
  assert (Hh : highlightedElement (fire (snd t) w) = None).
  { cbn [fire highlightedElement]. apply highlighted_after_removeHighlight. }
  destruct (fires_of_none due _ Hh) as [IHh IHd].
  split; [exact IHh|]. rewrite IHd. reflexivity.
Qed.

Lemma highlightElement_timers (element : ref) (actionType : string) (w : World) :
  now (highlightElement element actionType w) = now w
  /\ timers (highlightElement element actionType w)
     = timers w ++ [((now w + 1500)%nat, nextLabel w)].
Proof.
  unfold highlightElement. rewrite highlightElement_first_step.
  cbn [createActionLabel setTimeout with_highlight write now timers nextLabel].
  unfold removeHighlight. now destruct (highlightedElement w).
Qed.

(** Sleeping over a due timer right after a highlight undoes it. *)
Lemma sleep_over_a_timer (element : ref) (actionType : string) (w : World)
      (ms deadline label : nat) :
  In (deadline, label) (timers (highlightElement element actionType w)) ->
  (deadline <= now w + ms)%nat ->
  highlightedElement (sleep ms (highlightElement element actionType w)) = None
  /\ forall r,
       dom (sleep ms (highlightElement element actionType w)) r
       = dom (removeHighlight w) r.
Proof.
  intros Hin Hdue.
  destruct (highlightElement_timers element actionType w) as [Hnow _].
  unfold sleep. cbn [highlightedElement dom]. rewrite Hnow.
  destruct (fires_remove_highlight
              (filter (fun t => (fst t <=? now w + ms)%nat)
                      (timers (highlightElement element actionType w)))
              (highlightElement element actionType w)) as [Hh Hd].
  - intros Hempty.
    assert (Hf : In (deadline, label)
                    (filter (fun t => (fst t <=? now w + ms)%nat)
                            (timers (highlightElement element actionType w)))).
    { apply filter_In. split; [exact Hin|]. now apply Nat.leb_le. }
    rewrite Hempty in Hf. destruct Hf.
  - split; [exact Hh|]. intros r. rewrite Hd. apply highlight_then_remove.
Qed.

(** X24: 1500 ms or more after [highlightElement], the highlight has
    removed itself: no element is highlighted and every element has the
    style it had before (once the previous highlight, if any, was
    removed). *)
Theorem highlight_expires (element : ref) (actionType : string) (w : World) (ms : nat) :
  (1500 <= ms)%nat ->
  highlightedElement (sleep ms (highlightElement element actionType w)) = None
  /\ forall r,
       dom (sleep ms (highlightElement element actionType w)) r
       = dom (removeHighlight w) r.
Proof.
  intros Hms.
  apply (sleep_over_a_timer element actionType w ms (now w + 1500) (nextLabel w)).
  - destruct (highlightElement_timers element actionType w) as [_ ->].
    apply in_or_app. right. now left.
  - lia.
Qed.

Lemma highlight_expires_witness :
  highlightedElement (sleep 2000 (highlightElement 4%nat "type" quiet_page)) = None
  /\ dom (sleep 2000 (highlightElement 4%nat "type" quiet_page)) 4%nat = text_field.
Proof.
  destruct (highlight_expires 4%nat "type" quiet_page 2000) as [Hnone Hdom].
  - apply Nat.leb_le. reflexivity.
  - split; [exact Hnone|]. rewrite Hdom. reflexivity.
Defined.

(** X25: the removal scheduled by an earlier highlight is not cancelled
    by a new one. If it falls due while an action waits, the new
    highlight is removed then, however short the wait: no element is
    highlighted any more when the action goes on. *)
Theorem stale_timer_removes_new_highlight
        (element : ref) (actionType : string) (w : World) (ms deadline label : nat) :
  In (deadline, label) (timers w) ->
  (deadline <= now w + ms)%nat ->
  highlightedElement (highlightElement element actionType w) <> None
  /\ highlightedElement (sleep ms (highlightElement element actionType w)) = None
  /\ forall r,
       dom (sleep ms (highlightElement element actionType w)) r
       = dom (removeHighlight w) r.
Proof.
  intros Hin Hdue. split.
  - unfold highlightElement. rewrite highlightElement_first_step.
    cbn [createActionLabel setTimeout with_highlight highlightedElement]. discriminate.
  - apply (sleep_over_a_timer element actionType w ms deadline label); [|exact Hdue].
    destruct (highlightElement_timers element actionType w) as [_ ->].
    apply in_or_app. now left.
Qed.

Lemma stale_timer_removes_new_highlight_witness :
  highlightedElement (highlightElement 4%nat "type" highlighted_page) <> None
  /\ highlightedElement (sleep 500 (highlightElement 4%nat "type" highlighted_page)) = None
  /\ style (dom (sleep 500 (highlightElement 4%nat "type" highlighted_page)) 4%nat)
     = plain_style
  /\ outline (style (dom (sleep 500 (highlightElement 4%nat "type" highlighted_page)) 2%nat))
     = "1px dotted red"%string.
Proof.
  destruct (stale_timer_removes_new_highlight 4%nat "type" highlighted_page 500 1500 0)
    as (Hset & Hnone & Hdom).
  - left. reflexivity.
  - apply Nat.leb_le. reflexivity.
  - split; [exact Hset|]. split; [exact Hnone|].
    rewrite !Hdom. split; reflexivity.
Defined.

End HighlightLifecycle.

(** ** Scrolling, navigating, validating *)

Section WindowActions.
Import ActionExecutor Examples Scenarios.

(** X26: [executeScroll] succeeds exactly for the directions up, down,
    top, bottom, left and right, in any letter case. On success it makes
    one call on the window and records a scroll action with the direction
    as it was given; otherwise it makes no call, leaves the last action
    as it was, and reports "Unknown direction: " followed by the
    direction. *)
Theorem executeScroll_known_directions
        (direction : string) (amount : JsValue.value) (win : Window) :
  get (fst (executeScroll direction amount win)) "success"
  = VBool (existsb (String.eqb (toLowerCase direction)) scroll_directions)
  /\ (existsb (String.eqb (toLowerCase direction)) scroll_directions = true ->
      (exists c, calls (snd (executeScroll direction amount win)) = calls win ++ [c])
      /\ option_map (fun a => get a "direction")
           (lastWindowAction (snd (executeScroll direction amount win)))
         = Some (VString direction)
      /\ get (fst (executeScroll direction amount win)) "direction" = VString direction)
  /\ (existsb (String.eqb (toLowerCase direction)) scroll_directions = false ->
      snd (executeScroll direction amount win) = win
      /\ get (fst (executeScroll direction amount win)) "error"
         = VString ("Unknown direction: " ++ direction)).
Proof.
  unfold executeScroll, scroll_call, scroll_directions. cbn [existsb].
  destruct (String.eqb (toLowerCase direction) "up");
    [cbn; repeat split; try discriminate; eexists; reflexivity|].
  destruct (String.eqb (toLowerCase direction) "down");
    [cbn; repeat split; try discriminate; eexists; reflexivity|].
  destruct (String.eqb (toLowerCase direction) "top");
    [cbn; repeat split; try discriminate; eexists; reflexivity|].
  destruct (String.eqb (toLowerCase direction) "bottom");
    [cbn; repeat split; try discriminate; eexists; reflexivity|].
  destruct (String.eqb (toLowerCase direction) "left");
    [cbn; repeat split; try discriminate; eexists; reflexivity|].
  destruct (String.eqb (toLowerCase direction) "right");
    [cbn; repeat split; try discriminate; eexists; reflexivity|].
  cbn. repeat split; discriminate.
Qed.

(** X27: [executeNavigate] succeeds exactly for back, forward, refresh
    and reload, in any letter case; refresh and reload make the same
    call; an unknown action makes no call, leaves the last action as it
    was, and reports "Unknown navigation: " followed by the action. *)
Theorem executeNavigate_known_actions (action : string) (win : Window) :
  get (fst (executeNavigate action win)) "success"
  = VBool (existsb (String.eqb (toLowerCase action)) navigate_actions)
  /\ (existsb (String.eqb (toLowerCase action)) navigate_actions = true ->
      (exists c, calls (snd (executeNavigate action win)) = calls win ++ [c])
      /\ get (fst (executeNavigate action win)) "navigationAction" = VString action)
  /\ (existsb (String.eqb (toLowerCase action)) navigate_actions = false ->
      snd (executeNavigate action win) = win
      /\ get (fst (executeNavigate action win)) "error"
         = VString ("Unknown navigation: " ++ action))
  /\ calls (snd (executeNavigate "refresh" win)) = calls (snd (executeNavigate "reload" win)).
Proof.
  unfold executeNavigate, navigate_call, navigate_actions. cbn [existsb].
  destruct (String.eqb (toLowerCase action) "back");
    [cbn; repeat split; try discriminate; eexists; reflexivity|].
  destruct (String.eqb (toLowerCase action) "forward");
    [cbn; repeat split; try discriminate; eexists; reflexivity|].
  destruct (String.eqb (toLowerCase action) "refresh");
    [cbn; repeat split; try discriminate; eexists; reflexivity|].
  destruct (String.eqb (toLowerCase action) "reload");
    [cbn; repeat split; try discriminate; eexists; reflexivity|].
  cbn. repeat split; discriminate.
Qed.

(** X28: when [validateAction] answers [safe: true], the action type is
    one of click, scroll, focus and type; a missing element is accepted
    for scroll only; and an element that is given is still in the
    document and is not a file input. *)
Theorem validateAction_safe_means
        (actionType : string) (element : option HTMLElement) :
  safe (validateAction actionType element) = true ->
  In actionType safeActions
  /\ match element with
     | None => actionType = "scroll"%string
     | Some e =>
         inDocument e = true
         /\ ~ (toLowerCase (tagName e) = "input"%string
               /\ option_map toLowerCase (type e) = Some "file"%string)
     end.
Proof.
  unfold validateAction.
  destruct (existsb (String.eqb actionType) safeActions) eqn:Hsafe; [|discriminate].
  cbn [negb]. intros H. split.
  - apply existsb_exists in Hsafe as (a & Hin & Heq).
    apply String.eqb_eq in Heq. now subst a.
  - destruct element as [e|].
    + destruct (inDocument e); [|discriminate]. cbn [negb] in H.
      split; [reflexivity|]. intros [Htag Htype].
      rewrite Htag, Htype in H. discriminate.
    + destruct (String.eqb actionType "scroll") eqn:Hscroll; [|discriminate].
      now apply String.eqb_eq.
Qed.

Lemma validateAction_safe_means_witness :
  In "type"%string safeActions /\ inDocument password_input = true.
Proof.
  destruct (validateAction_safe_means "type" (Some password_input) eq_refl)
    as [Hin [Hdoc _]].
  split; [exact Hin|exact Hdoc].
Defined.

(** X29: [validateAction] asks for a confirmation exactly when the
    action type is whitelisted and the element, still in the document, is
    a password input, a submit button or a submit input; it then also
    answers [safe: true]. *)
Theorem validateAction_confirmation
        (actionType : string) (e : HTMLElement) :
  needsConfirmation (validateAction actionType (Some e)) = true
  <-> existsb (String.eqb actionType) safeActions = true
      /\ inDocument e = true
      /\ ((toLowerCase (tagName e) = "input"%string
           /\ option_map toLowerCase (type e) = Some "password"%string)
          \/ (toLowerCase (tagName e) = "button"%string
              /\ option_map toLowerCase (type e) = Some "submit"%string)
          \/ (toLowerCase (tagName e) = "input"%string
              /\ option_map toLowerCase (type e) = Some "submit"%string)).
Proof.
  unfold validateAction.
  destruct (existsb (String.eqb actionType) safeActions); cbn [negb];
    [|split; [discriminate|intros [H _]; discriminate]].
  destruct (inDocument e); cbn [negb];
    [|split; [discriminate|intros (_ & H & _); discriminate]].
  split.
  - intros H. split; [reflexivity|]. split; [reflexivity|].
    destruct (option_map toLowerCase (type e)) as [ty|]; cbn [andb] in H.
    + destruct (String.eqb (toLowerCase (tagName e)) "input") eqn:Htag; cbn [andb] in H.
      * apply String.eqb_eq in Htag.
        destruct (String.eqb ty "file"); [discriminate H|].
        destruct (String.eqb ty "password") eqn:Hpassword.
        { apply String.eqb_eq in Hpassword. subst ty. left. now split. }
        destruct (String.eqb ty "submit") eqn:Hsubmit.
        { apply String.eqb_eq in Hsubmit. subst ty. right. right. now split. }
        rewrite andb_false_r in H. discriminate H.
      * destruct (String.eqb (toLowerCase (tagName e)) "button") eqn:Hbutton;
          cbn [andb orb] in H; [|discriminate H].
        apply String.eqb_eq in Hbutton.
        destruct (String.eqb ty "submit") eqn:Hsubmit; [|discriminate H].
        apply String.eqb_eq in Hsubmit. subst ty. right. left. now split.
    + rewrite !andb_false_r in H. discriminate H.
  - intros (_ & _ & [[Htag Hty]|[[Htag Hty]|[Htag Hty]]]); rewrite Htag, Hty; reflexivity.
Qed.

End WindowActions.

(** ** Elements found by two passes *)

Section TwoPasses.
Import ElementDetector Examples Scenarios.

(** X19: the number of catalog entries that refer to a DOM node is the
    sum of what the four passes list for it; so, on every page, a visible
    element that both the search pass and the input pass select has at
    least two entries. *)
Theorem element_of_two_passes_has_two_entries (document : list Element) (e : Element) :
  In e document -> isVisible e = true ->
  search_selector e = true -> input_selector e = true ->
  entries_for (node e) (getAllInteractiveElements document)
  = (entries_for (node e) (getAllSearchBars document)
     + entries_for (node e) (getAllButtons document)
     + entries_for (node e) (getAllLinks document)
     + entries_for (node e) (getAllInputs document))%nat
  /\ (2 <= entries_for (node e) (getAllInteractiveElements document))%nat.
Proof.
  intros Hin Hvis Hsearch Hinput. split.
  - rewrite dedupe_is_vacuous, !entries_for_app. lia.
  - now apply found_twice_listed_twice.
Qed.

Lemma element_of_two_passes_has_two_entries_witness :
  (2 <= entries_for 7 (getAllInteractiveElements [docs_link; search_box]))%nat.
Proof.
  apply (element_of_two_passes_has_two_entries [docs_link; search_box] search_box).
  - right. left. reflexivity.
  - reflexivity.
  - reflexivity.
  - reflexivity.
Defined.

End TwoPasses.
